(** * Tender triage engine: a shallow embedding of
      [react-frontend/src/components/TenderList.tsx]

    The component keeps four pieces of modal state and four control values,
    derives the list it renders with [getFilteredTenders], counts the view
    tabs with [getViewStats], loads a tender's detail with [openModal] /
    [closeModal] and normalises contact payloads with [parseContactInfo].
    Every definition below follows the TypeScript line by line; JavaScript
    built-ins the component calls ([Array.prototype.sort], [Date], [JSON.parse],
    [String.prototype.includes] ...) are modelled in the first part. *)

From Stdlib Require Import ZArith List String Ascii Bool Lia Permutation Sorted.
From stdpp Require Import gmap strings.
Import ListNotations.

Local Open Scope string_scope.
Local Open Scope list_scope.
Local Open Scope Z_scope.

(* ===================================================================== *)
(** * JavaScript runtime                                                  *)
(* ===================================================================== *)

Module Js.

(** Exceptions the modelled code can raise. *)
Inductive Exn : Type :=
| ReferenceError (name : string)   (* binding read before initialisation *)
| SyntaxError.                     (* JSON.parse on a non-JSON text *)

(** A computation either returns or throws. *)
Inductive Result (A : Type) : Type :=
| Ok (a : A)
| Throw (e : Exn).
Arguments Ok {A} a.
Arguments Throw {A} e.

Definition bind {A B} (m : Result A) (k : A -> Result B) : Result B :=
  match m with
  | Ok a => k a
  | Throw e => Throw e
  end.

(** [try { m } catch { h }] *)
Definition try_catch {A} (m : Result A) (h : Exn -> Result A) : Result A :=
  match m with
  | Ok a => Ok a
  | Throw e => h e
  end.

Definition returns {A} (m : Result A) : Prop := exists a, m = Ok a.

(** Numbers produced by the comparators: integral values (time values in
    milliseconds, urgency scores, -1/0/1) or NaN.  Differences of two time
    values are computed in [Z]; the IEEE rounding of such a difference keeps
    its sign, which is all [sort] looks at. *)
Inductive Num : Type :=
| NaN
| Int (z : Z).

Definition sub (x y : Num) : Num :=
  match x, y with
  | Int a, Int b => Int (a - b)
  | _, _ => NaN
  end.

(** Truthiness of an optional string ([undefined], [null] and the empty
    string are falsy). *)
Definition truthy (o : option string) : bool :=
  match o with
  | Some s => negb (String.eqb s "")
  | None => false
  end.

(** [x || y] on optional strings. *)
Definition or_else (x y : option string) : option string :=
  if truthy x then x else y.

(** [String.prototype.toLowerCase], on the ASCII letters. *)
Definition lower_ascii (c : ascii) : ascii :=
  let n := nat_of_ascii c in
  if (Nat.leb 65 n && Nat.leb n 90)%bool then ascii_of_nat (n + 32) else c.

Fixpoint toLowerCase (s : string) : string :=
  match s with
  | EmptyString => EmptyString
  | String c s' => String (lower_ascii c) (toLowerCase s')
  end.

(** [s.includes(sub)] *)
Fixpoint includes (s sub : string) : bool :=
  (String.prefix sub s ||
   match s with
   | EmptyString => false
   | String _ s' => includes s' sub
   end)%bool.

(** [xs.includes(x)] on an array of strings. *)
Definition array_includes (xs : list string) (x : string) : bool :=
  existsb (String.eqb x) xs.

End Js.

Import Js.

(** [Result] is a monad; stdpp's [x ← m; k] is its sequencing. *)
#[global] Instance Result_ret : MRet Result := fun A a => Ok a.
#[global] Instance Result_bind : MBind Result := fun A B k m => Js.bind m k.

(* ===================================================================== *)
(** * Array.prototype.sort                                                *)
(* ===================================================================== *)

(** ECMAScript requires [sort] to be stable and to read the comparator's
    result through [SortCompare], which turns NaN into +0.  For a consistent
    comparator that fixes the result; for an inconsistent one (NaN makes the
    date comparators so) the order is implementation-defined.  The model is
    the stable insertion sort; an exception raised by the comparator aborts
    the sort and propagates to the caller.  An array of fewer than two
    elements is returned without calling the comparator. *)
Module JsSort.
Section Sort.
Context {A : Type}.

Definition SortCompare (v : Num) : Z :=
  match v with
  | NaN => 0
  | Int z => z
  end.

Section Effectful.
Variable comparefn : A -> A -> Result Num.

Fixpoint insertM (x : A) (l : list A) : Result (list A) :=
  match l with
  | [] => Ok [x]
  | y :: l' =>
      v ← comparefn x y;
      if SortCompare v <=? 0 then Ok (x :: y :: l')
      else r ← insertM x l'; Ok (y :: r)
  end.

Fixpoint sortM (l : list A) : Result (list A) :=
  match l with
  | [] => Ok []
  | x :: l' => s ← sortM l'; insertM x s
  end.
End Effectful.

(** The same sort for a comparator that cannot throw. *)
Section Pure.
Variable cmp : A -> A -> Num.

Fixpoint insert (x : A) (l : list A) : list A :=
  match l with
  | [] => [x]
  | y :: l' =>
      if SortCompare (cmp x y) <=? 0 then x :: y :: l'
      else y :: insert x l'
  end.

Fixpoint sort (l : list A) : list A :=
  match l with
  | [] => []
  | x :: l' => insert x (sort l')
  end.
End Pure.

End Sort.
End JsSort.

(* ===================================================================== *)
(** * Data model ([types/index.ts])                                       *)
(* ===================================================================== *)

#[local] Unset Elimination Schemes.
(** A JSON-like JavaScript value: what [contact_info] may hold at run time
    and what [JSON.parse] returns.  A number is the decimal [m * 10^e]. *)
Inductive JsValue : Type :=
| JUndefined
| JNull
| JBool (b : bool)
| JNum (m e : Z)
| JStr (s : string)
| JArr (items : list JsValue)
| JObj (fields : gmap string JsValue).
#[local] Set Elimination Schemes.

Record DateValidation : Type := {
  deadline_status : option string;
  urgency_level : option string;
  days_until_deadline : option Z
}.

Record DetailedTenderInfo : Type := {
  detailed_title : option string;
  deadline : option string;
  contact_info : JsValue;
  date_validation : option DateValidation
}.

Record Tender : Type := {
  id : Z;
  title : string;
  description : option string;
  category : string;
  tender_date : option string;
  is_processed : bool;
  created_at : string;
  detailed_info : option DetailedTenderInfo
}.

Inductive ViewType : Type := Processed | AllTenders | Active | Expired.
Inductive SortType : Type := Newest | Oldest | Deadline | Urgent.

(** [t.detailed_info?.date_validation] *)
Definition dateValidationOf (t : Tender) : option DateValidation :=
  match detailed_info t with
  | Some d => date_validation d
  | None => None
  end.

(** [t.detailed_info?.deadline] *)
Definition deadlineOf (t : Tender) : option string :=
  match detailed_info t with
  | Some d => deadline d
  | None => None
  end.

(** [x || ''] *)
Definition orEmpty (o : option string) : string :=
  match o with
  | Some s => s
  | None => ""
  end.

(* ===================================================================== *)
(** * View / filter / sort pipeline                                       *)
(* ===================================================================== *)

(** [getUrgencyScore] (lines 131-143). *)
Definition getUrgencyScore (tender : Tender) : Z :=
  match dateValidationOf tender with
  | None => 0
  | Some dateValidation =>
      if negb (truthy (urgency_level dateValidation)) then 0
      else
        let level := orEmpty (urgency_level dateValidation) in
        if String.eqb level "urgent" then 5
        else if String.eqb level "high" then 4
        else if String.eqb level "medium" then 3
        else if String.eqb level "low" then 2
        else if String.eqb level "expired" then 1
        else 0
  end.

(** The callbacks of the two view filters (lines 78-81 and 84-87). *)
Definition activeViewFilter (t : Tender) : bool :=
  match dateValidationOf t with
  | None => true
  | Some dv => array_includes ["active"; "urgent"] (orEmpty (deadline_status dv))
  end.

Definition expiredViewFilter (t : Tender) : bool :=
  match dateValidationOf t with
  | None => false
  | Some dv =>
      match deadline_status dv with
      | Some st => String.eqb st "expired"
      | None => false
      end
  end.

(** Stage 1, the [switch (selectedView)] of lines 70-89. *)
Definition applyView (selectedView : ViewType) (filtered : list Tender) : list Tender :=
  match selectedView with
  | Processed => List.filter is_processed filtered
  | AllTenders => filtered
  | Active => List.filter activeViewFilter filtered
  | Expired => List.filter expiredViewFilter filtered
  end.

(** Stage 2, lines 92-97. *)
Definition searchFilter (searchTerm : string) (tender : Tender) : bool :=
  (includes (toLowerCase (title tender)) (toLowerCase searchTerm) ||
   match description tender with
   | Some d =>
       negb (String.eqb d "") && includes (toLowerCase d) (toLowerCase searchTerm)
   | None => false
   end)%bool.

Definition applySearch (searchTerm : string) (filtered : list Tender) : list Tender :=
  if negb (String.eqb searchTerm "")
  then List.filter (searchFilter searchTerm) filtered
  else filtered.

(** Stage 3, lines 100-102. *)
Definition applyCategory (selectedCategory : string) (filtered : list Tender) : list Tender :=
  if negb (String.eqb selectedCategory "all")
  then List.filter (fun tender => String.eqb (category tender) selectedCategory) filtered
  else filtered.

(** [getViewStats] (lines 201-214). *)
Record ViewStats : Type := {
  stats_processed : nat;
  stats_all : nat;
  stats_active : nat;
  stats_expired : nat
}.

Definition statsActiveFilter (t : Tender) : bool :=
  match dateValidationOf t with
  | None => false
  | Some dv => array_includes ["active"; "urgent"] (orEmpty (deadline_status dv))
  end.

Definition getViewStats (tenders : list Tender) : ViewStats :=
  {| stats_processed := length (List.filter is_processed tenders);
     stats_all := length tenders;
     stats_active := length (List.filter statsActiveFilter tenders);
     stats_expired := length (List.filter expiredViewFilter tenders) |}.

Section Pipeline.
(** [new Date(s).getTime()]: the time value of a date string, NaN when the
    string does not parse. *)
Variable Date_getTime : string -> Num.

(** The [deadlineA] / [deadlineB] of lines 112-113. *)
Definition effectiveDeadline (t : Tender) : option string :=
  or_else (deadlineOf t) (tender_date t).

(** The comparator handed to [filtered.sort] (lines 105-123).  The
    identifier [getUrgencyScore] is resolved when the ['urgent'] branch runs;
    [binding] is the state of that [const] binding at the time of the call:
    [None] while it is still uninitialised, in which case reading it throws
    (a ReferenceError; a TypeError at the call if the build lowers [const]
    to [var]). *)
Definition compareTenders (binding : option (Tender -> Z)) (sortBy : SortType)
    (a b : Tender) : Result Num :=
  match sortBy with
  | Newest => Ok (sub (Date_getTime (created_at b)) (Date_getTime (created_at a)))
  | Oldest => Ok (sub (Date_getTime (created_at a)) (Date_getTime (created_at b)))
  | Deadline =>
      let deadlineA := effectiveDeadline a in
      let deadlineB := effectiveDeadline b in
      if (negb (truthy deadlineA) && negb (truthy deadlineB))%bool then Ok (Int 0)
      else if negb (truthy deadlineA) then Ok (Int 1)
      else if negb (truthy deadlineB) then Ok (Int (-1))
      else Ok (sub (Date_getTime (orEmpty deadlineA)) (Date_getTime (orEmpty deadlineB)))
  | Urgent =>
      match binding with
      | None => Throw (ReferenceError "getUrgencyScore")
      | Some score => Ok (Int (score b - score a))
      end
  end.

(** [getFilteredTenders] (lines 66-126), with the component state it reads
    passed explicitly. *)
Definition getFilteredTenders (binding : option (Tender -> Z))
    (tenders : list Tender) (selectedView : ViewType) (searchTerm : string)
    (selectedCategory : string) (sortBy : SortType) : Result (list Tender) :=
  let filtered := tenders in
  let filtered := applyView selectedView filtered in
  let filtered := applySearch searchTerm filtered in
  let filtered := applyCategory selectedCategory filtered in
  JsSort.sortM (compareTenders binding sortBy) filtered.

(** Line 128: [const filteredTenders = getFilteredTenders();].  The call is
    made while the component body is still running, three lines before
    [const getUrgencyScore = ...] (line 131) is evaluated, so the binding the
    comparator closes over is uninitialised.  This is the derivation the
    component renders. *)
Definition derive (tenders : list Tender) (view : ViewType) (searchTerm : string)
    (category : string) (sortBy : SortType) : Result (list Tender) :=
  getFilteredTenders None tenders view searchTerm category sortBy.

End Pipeline.

(* ===================================================================== *)
(** * Detail loader ([openModal] / [closeModal])                          *)
(* ===================================================================== *)

(** The four [useState] cells of lines 41-44. *)
Record ModalState : Type := {
  isModalOpen : bool;
  selectedTender : option Tender;
  detailedTender : option Tender;
  loadingDetails : bool
}.

(** The component together with what the runtime holds for it: every
    [openModal] activation suspended at its [await], keyed by request, with
    the [tender] argument that activation closes over; the number of requests
    issued so far; and the lines written by [console.error]. *)
Record Loader : Type := {
  modal : ModalState;
  inflight : gmap nat Tender;
  issued : nat;
  console : list string
}.

Definition initialModal : ModalState :=
  {| isModalOpen := false; selectedTender := None;
     detailedTender := None; loadingDetails := false |}.

Definition initialLoader : Loader :=
  {| modal := initialModal; inflight := ∅; issued := 0%nat; console := [] |}.

(** [openModal], lines 220-225: the three setters, then the request is sent
    and the activation suspends. *)
Definition openModal_begin (tender : Tender) (w : Loader) : Loader :=
  let m := modal w in
  {| modal := {| isModalOpen := true;
                 selectedTender := Some tender;
                 detailedTender := detailedTender m;
                 loadingDetails := true |};
     inflight := <[issued w := tender]> (inflight w);
     issued := S (issued w);
     console := console w |}.

(** [openModal], lines 226 and 231: the promise fulfilled with [detailed]. *)
Definition openModal_fulfilled (r : nat) (detailed : Tender) (w : Loader) : Loader :=
  let m := modal w in
  {| modal := {| isModalOpen := isModalOpen m;
                 selectedTender := selectedTender m;
                 detailedTender := Some detailed;
                 loadingDetails := false |};
     inflight := delete r (inflight w);
     issued := issued w;
     console := console w |}.

(** [openModal], lines 227-231: the promise rejected; [tender] is the
    argument of the suspended activation. *)
Definition openModal_rejected (r : nat) (tender : Tender) (w : Loader) : Loader :=
  let m := modal w in
  {| modal := {| isModalOpen := isModalOpen m;
                 selectedTender := selectedTender m;
                 detailedTender := Some tender;
                 loadingDetails := false |};
     inflight := delete r (inflight w);
     issued := issued w;
     console := console w ++ ["Failed to load tender details:"] |}.

(** [closeModal], lines 235-240. *)
Definition closeModal (w : Loader) : Loader :=
  {| modal := {| isModalOpen := false;
                 selectedTender := None;
                 detailedTender := None;
                 loadingDetails := false |};
     inflight := inflight w;
     issued := issued w;
     console := console w |}.

(** What can happen to the component: the operator selects a tender or
    closes the view; the collaborator answers or fails a request. *)
Inductive Event : Type :=
| Select (tender : Tender)
| Close
| Fulfil (r : nat) (detailed : Tender)
| Reject (r : nat).

(** One event; [None] when the event answers a request that is not in
    flight, which the runtime never delivers. *)
Definition step (w : Loader) (e : Event) : option Loader :=
  match e with
  | Select tender => Some (openModal_begin tender w)
  | Close => Some (closeModal w)
  | Fulfil r detailed =>
      match inflight w !! r with
      | Some _ => Some (openModal_fulfilled r detailed w)
      | None => None
      end
  | Reject r =>
      match inflight w !! r with
      | Some tender => Some (openModal_rejected r tender w)
      | None => None
      end
  end.

Fixpoint run (w : Loader) (es : list Event) : option Loader :=
  match es with
  | [] => Some w
  | e :: es' =>
      match step w e with
      | Some w' => run w' es'
      | None => None
      end
  end.

(** The loader is idle: the state [closeModal] establishes. *)
Definition idle (m : ModalState) : Prop := m = initialModal.

(** An event that is the late answer to some request. *)
Definition isResponse (e : Event) : bool :=
  match e with
  | Fulfil _ _ | Reject _ => true
  | Select _ | Close => false
  end.

(* ===================================================================== *)
(** * JSON.parse                                                          *)
(* ===================================================================== *)

(** A recursive-descent reader of the JSON grammar (ECMA-404).  A string is
    the sequence of bytes of its UTF-8 encoding; a [\uXXXX] escape is written
    back as the encoding of that code unit. *)
Module JSON.

Definition code (c : ascii) : nat := nat_of_ascii c.

Definition is_ws (c : ascii) : bool :=
  let n := code c in
  ((n =? 32) || (n =? 9) || (n =? 10) || (n =? 13))%nat.

Fixpoint skip_ws (s : string) : string :=
  match s with
  | String c s' => if is_ws c then skip_ws s' else s
  | EmptyString => s
  end.

Definition is_digit (c : ascii) : bool :=
  ((48 <=? code c) && (code c <=? 57))%nat.

Definition digit_val (c : ascii) : Z := Z.of_nat (code c - 48).

(** Reads a run of digits after [acc]; also returns how many were read. *)
Fixpoint digits (s : string) (acc : Z) (k : nat) : Z * nat * string :=
  match s with
  | String c s' =>
      if is_digit c then digits s' (10 * acc + digit_val c) (S k) else (acc, k, s)
  | EmptyString => (acc, k, s)
  end.

Definition hex_val (c : ascii) : option nat :=
  let n := code c in
  if ((48 <=? n) && (n <=? 57))%nat then Some (n - 48)%nat
  else if ((97 <=? n) && (n <=? 102))%nat then Some (n - 87)%nat
  else if ((65 <=? n) && (n <=? 70))%nat then Some (n - 55)%nat
  else None.

Definition utf8 (n : nat) (rest : string) : string :=
  (if n <? 128 then String (ascii_of_nat n) rest
   else if n <? 2048 then
     String (ascii_of_nat (192 + n / 64))
       (String (ascii_of_nat (128 + n mod 64)) rest)
   else
     String (ascii_of_nat (224 + n / 4096))
       (String (ascii_of_nat (128 + (n / 64) mod 64))
          (String (ascii_of_nat (128 + n mod 64)) rest)))%nat.

Definition escape (c : ascii) : option nat :=
  let n := code c in
  (if (n =? 34) || (n =? 92) || (n =? 47) then Some n
   else if n =? 98 then Some 8
   else if n =? 102 then Some 12
   else if n =? 110 then Some 10
   else if n =? 114 then Some 13
   else if n =? 116 then Some 9
   else None)%nat.

(** The characters of a string literal after its opening quote, up to and
    including the closing quote. *)
Fixpoint string_body (s : string) : option (string * string) :=
  match s with
  | EmptyString => None
  | String c s' =>
      if (code c =? 34)%nat then Some (EmptyString, s')
      else if (code c =? 92)%nat then
        match s' with
        | String e s'' =>
            if (code e =? 117)%nat then
              match s'' with
              | String h1 (String h2 (String h3 (String h4 r))) =>
                  a ← hex_val h1; b ← hex_val h2; c ← hex_val h3; d ← hex_val h4;
                  '(str, rest) ← string_body r;
                  Some (utf8 (((a * 16 + b) * 16 + c) * 16 + d)%nat str, rest)
              | _ => None
              end
            else
              n ← escape e;
              '(str, rest) ← string_body s'';
              Some (String (ascii_of_nat n) str, rest)
        | EmptyString => None
        end
      else if (code c <? 32)%nat then None
      else
        '(str, rest) ← string_body s';
        Some (String c str, rest)
  end.

Fixpoint strip (lit s : string) : option string :=
  match lit with
  | EmptyString => Some s
  | String a lit' =>
      match s with
      | String b s' => if Ascii.eqb a b then strip lit' s' else None
      | EmptyString => None
      end
  end.

Definition exponent (m e : Z) (s : string) : option (JsValue * string) :=
  match s with
  | String c r =>
      if ((code c =? 101) || (code c =? 69))%nat then
        let '(neg, r1) :=
          match r with
          | String sg r' =>
              if (code sg =? 45)%nat then (true, r')
              else if (code sg =? 43)%nat then (false, r')
              else (false, r)
          | EmptyString => (false, r)
          end in
        let '(x, k, r2) := digits r1 0 0 in
        if (k =? 0)%nat then None
        else Some (JNum m (if neg then e - x else e + x), r2)
      else Some (JNum m e, s)
  | EmptyString => Some (JNum m e, s)
  end.

Definition fraction (m : Z) (s : string) : option (JsValue * string) :=
  match s with
  | String c r =>
      if (code c =? 46)%nat then
        let '(m', k, r1) := digits r m 0 in
        if (k =? 0)%nat then None else exponent m' (- Z.of_nat k) r1
      else exponent m 0 s
  | EmptyString => exponent m 0 s
  end.

Definition negate (p : option (JsValue * string)) : option (JsValue * string) :=
  match p with
  | Some (JNum m e, r) => Some (JNum (- m) e, r)
  | other => other
  end.

Definition unsigned (s : string) : option (JsValue * string) :=
  match s with
  | String c r =>
      if (code c =? 48)%nat then fraction 0 r
      else if is_digit c then let '(m, _, r1) := digits s 0 0 in fraction m r1
      else None
  | EmptyString => None
  end.

Definition number (s : string) : option (JsValue * string) :=
  match s with
  | String c r => if (code c =? 45)%nat then negate (unsigned r) else unsigned s
  | EmptyString => None
  end.

Fixpoint value (fuel : nat) (s : string) : option (JsValue * string) :=
  match fuel with
  | O => None
  | S fuel' =>
      match skip_ws s with
      | EmptyString => None
      | String c r as s0 =>
          if (code c =? 34)%nat then
            '(str, rest) ← string_body r; Some (JStr str, rest)
          else if (code c =? 91)%nat then
            match skip_ws r with
            | String c2 r2 as r1 =>
                if (code c2 =? 93)%nat then Some (JArr [], r2)
                else '(vs, rest) ← elements fuel' r1; Some (JArr vs, rest)
            | EmptyString => None
            end
          else if (code c =? 123)%nat then
            match skip_ws r with
            | String c2 r2 as r1 =>
                if (code c2 =? 125)%nat then Some (JObj ∅, r2)
                else '(fs, rest) ← members fuel' r1 ∅; Some (JObj fs, rest)
            | EmptyString => None
            end
          else
            match strip "null" s0, strip "true" s0, strip "false" s0 with
            | Some rest, _, _ => Some (JNull, rest)
            | _, Some rest, _ => Some (JBool true, rest)
            | _, _, Some rest => Some (JBool false, rest)
            | None, None, None => number s0
            end
      end
  end
with elements (fuel : nat) (s : string) : option (list JsValue * string) :=
  match fuel with
  | O => None
  | S fuel' =>
      '(v, r) ← value fuel' s;
      match skip_ws r with
      | String c r1 =>
          if (code c =? 44)%nat then
            '(vs, rest) ← elements fuel' r1; Some (v :: vs, rest)
          else if (code c =? 93)%nat then Some ([v], r1)
          else None
      | EmptyString => None
      end
  end
with members (fuel : nat) (s : string) (acc : gmap string JsValue)
    : option (gmap string JsValue * string) :=
  match fuel with
  | O => None
  | S fuel' =>
      match skip_ws s with
      | String q r =>
          if (code q =? 34)%nat then
            '(k, r1) ← string_body r;
            match skip_ws r1 with
            | String colon r2 =>
                if (code colon =? 58)%nat then
                  '(v, r3) ← value fuel' r2;
                  match skip_ws r3 with
                  | String c r4 =>
                      if (code c =? 44)%nat then members fuel' r4 (<[k:=v]> acc)
                      else if (code c =? 125)%nat then Some (<[k:=v]> acc, r4)
                      else None
                  | EmptyString => None
                  end
                else None
            | EmptyString => None
            end
          else None
      | EmptyString => None
      end
  end.

(** [JSON.parse(text)]: one value, surrounded by white space only. *)
Definition parse (text : string) : Result JsValue :=
  match value (2 * String.length text + 2) text with
  | Some (v, rest) =>
      match skip_ws rest with
      | EmptyString => Ok v
      | String _ _ => Throw SyntaxError
      end
  | None => Throw SyntaxError
  end.

End JSON.

(* ===================================================================== *)
(** * Contact info normaliser ([parseContactInfo])                        *)
(* ===================================================================== *)

(** Truthiness of a value, for [contactInfo || {}]. *)
Definition js_truthy (v : JsValue) : bool :=
  match v with
  | JUndefined | JNull => false
  | JBool b => b
  | JNum m _ => negb (m =? 0)
  | JStr s => negb (String.eqb s "")
  | JArr _ | JObj _ => true
  end.

Section ContactInfo.
(** [JSON.parse], as the component sees it: a value or a SyntaxError. *)
Variable JSON_parse : string -> Result JsValue.

(** [parseContactInfo] (lines 243-252). *)
Definition parseContactInfo (contactInfo : JsValue) : Result JsValue :=
  match contactInfo with
  | JStr text =>
      try_catch (JSON_parse text)
        (fun _ => Ok (JObj {[ "organization" := JStr text ]}))
  | _ => Ok (if js_truthy contactInfo then contactInfo else JObj ∅)
  end.
End ContactInfo.

(* ===================================================================== *)
(** * new Date(text).getTime()                                            *)
(* ===================================================================== *)

(** The pipeline is parametric in the date reader.  This instance reads the
    UTC forms of the ECMAScript date-time string format, [YYYY-MM-DD] and
    [YYYY-MM-DDTHH:mm:ssZ]; every other text has no time value (NaN) here.
    It is the reader used for the worked examples. *)
Module UtcDate.

Definition digit (c : ascii) : option Z :=
  if JSON.is_digit c then Some (JSON.digit_val c) else None.

Definition two (a b : ascii) : option Z :=
  x ← digit a; y ← digit b; Some (10 * x + y).

Definition four (a b c d : ascii) : option Z :=
  x ← two a b; y ← two c d; Some (100 * x + y).

Definition leap (y : Z) : bool :=
  ((y mod 4 =? 0) && negb (y mod 100 =? 0) || (y mod 400 =? 0))%bool.

Definition daysInMonth (y m : Z) : Z :=
  if m =? 2 then (if leap y then 29 else 28)
  else if ((m =? 4) || (m =? 6) || (m =? 9) || (m =? 11))%bool then 30
  else 31.

(** Days from 1970-01-01 to the civil date [y-m-d]. *)
Definition daysFromCivil (y m d : Z) : Z :=
  let y' := if m <=? 2 then y - 1 else y in
  let era := y' / 400 in
  let yoe := y' - era * 400 in
  let mp := if 2 <? m then m - 3 else m + 9 in
  let doy := (153 * mp + 2) / 5 + d - 1 in
  let doe := yoe * 365 + yoe / 4 - yoe / 100 + doy in
  era * 146097 + doe - 719468.

Definition msPerDay : Z := 86400000.

Definition date (y m d : Z) : option Z :=
  if ((1 <=? m) && (m <=? 12) && (1 <=? d) && (d <=? daysInMonth y m))%bool
  then Some (daysFromCivil y m d * msPerDay)
  else None.

Definition time (h mi s : Z) : option Z :=
  if ((h <=? 23) && (mi <=? 59) && (s <=? 59))%bool
  then Some ((h * 60 + mi) * 60000 + s * 1000)
  else None.

Definition dash (c : ascii) : bool := (JSON.code c =? 45)%nat.
Definition colon (c : ascii) : bool := (JSON.code c =? 58)%nat.

Definition read (text : string) : option Z :=
  match text with
  | String y1 (String y2 (String y3 (String y4 (String d1
      (String m1 (String m2 (String d2 (String a1 (String a2 rest))))))))) =>
      if (dash d1 && dash d2)%bool then
        y ← four y1 y2 y3 y4; m ← two m1 m2; d ← two a1 a2;
        day ← date y m d;
        match rest with
        | EmptyString => Some day
        | String t (String h1 (String h2 (String c1 (String i1 (String i2
            (String c2 (String s1 (String s2 (String z EmptyString))))))))) =>
            if ((JSON.code t =? 84)%nat && colon c1 && colon c2
                && (JSON.code z =? 90)%nat)%bool then
              h ← two h1 h2; mi ← two i1 i2; s ← two s1 s2;
              ms ← time h mi s;
              Some (day + ms)
            else None
        | _ => None
        end
      else None
  | _ => None
  end.

Definition getTime (text : string) : Num :=
  match read text with
  | Some ms => Int ms
  | None => NaN
  end.

End UtcDate.

(* ===================================================================== *)
(** * Vocabulary of the statements                                        *)
(* ===================================================================== *)

(** [Before a b l]: some occurrence of [a] in [l] has an occurrence of [b]
    to its right. *)
Inductive Before {A : Type} (a b : A) : list A -> Prop :=
| Before_here (m : list A) : In b m -> Before a b (a :: m)
| Before_later (x : A) (m : list A) : Before a b m -> Before a b (x :: m).

(** [tied cmp a b]: the comparator puts neither element before the other. *)
Definition tied {A : Type} (cmp : A -> A -> Num) (a b : A) : bool :=
  ((JsSort.SortCompare (cmp a b) <=? 0) && (JsSort.SortCompare (cmp b a) <=? 0))%bool.

(** The three filtering stages, before the sort. *)
Definition filterStages (view : ViewType) (searchTerm category : string)
    (tenders : list Tender) : list Tender :=
  applyCategory category (applySearch searchTerm (applyView view tenders)).

(** A tender the active view presumes active: no date-validation data, or a
    deadline status of [active] or [urgent]. *)
Definition presumedActive (t : Tender) : Prop :=
  dateValidationOf t = None \/
  exists dv, dateValidationOf t = Some dv /\
    (deadline_status dv = Some "active" \/ deadline_status dv = Some "urgent").

(** A tender with date-validation data whose deadline status is [expired]. *)
Definition provenExpired (t : Tender) : Prop :=
  exists dv, dateValidationOf t = Some dv /\ deadline_status dv = Some "expired".

Definition nonThrowing (sortBy : SortType) : bool :=
  match sortBy with
  | Urgent => false
  | Newest | Oldest | Deadline => true
  end.

(** The number the comparator returns, when it returns. *)
Definition comparison (Date_getTime : string -> Num)
    (binding : option (Tender -> Z)) (sortBy : SortType) (a b : Tender) : Num :=
  match compareTenders Date_getTime binding sortBy a b with
  | Ok v => v
  | Throw _ => NaN
  end.

(** [tender.detailed_info?.date_validation?.urgency_level] *)
Definition urgencyTier (t : Tender) : option string :=
  match dateValidationOf t with
  | Some dv => urgency_level dv
  | None => None
  end.

(** The score as the specification words it. *)
Definition tierScore (tier : option string) : Z :=
  match tier with
  | Some level =>
      if decide (level = "urgent") then 5
      else if decide (level = "high") then 4
      else if decide (level = "medium") then 3
      else if decide (level = "low") then 2
      else if decide (level = "expired") then 1
      else 0
  | None => 0
  end.

Definition hasDeadline (t : Tender) : bool := truthy (effectiveDeadline t).

(** The time value of a tender's effective deadline. *)
Definition deadlineTime (Date_getTime : string -> Num) (t : Tender) : Num :=
  Date_getTime (orEmpty (effectiveDeadline t)).

Definition notLater (Date_getTime : string -> Num) (a b : Tender) : Prop :=
  forall x y,
    deadlineTime Date_getTime a = Int x -> deadlineTime Date_getTime b = Int y ->
    x <= y.

(* ===================================================================== *)
(** * Worked collections                                                  *)
(* ===================================================================== *)

Definition summary (n : Z) (created : string) : Tender :=
  {| id := n; title := "Tender"; description := None; category := "esg";
     tender_date := None; is_processed := true; created_at := created;
     detailed_info := None |}.

Definition withDetail (dl : option string) (dv : option DateValidation)
    (t : Tender) : Tender :=
  {| id := id t; title := title t; description := description t;
     category := category t; tender_date := tender_date t;
     is_processed := is_processed t; created_at := created_at t;
     detailed_info :=
       Some {| detailed_title := None; deadline := dl;
               contact_info := JUndefined; date_validation := dv |} |}.

Definition withTenderDate (d : string) (t : Tender) : Tender :=
  {| id := id t; title := title t; description := description t;
     category := category t; tender_date := Some d;
     is_processed := is_processed t; created_at := created_at t;
     detailed_info := detailed_info t |}.

Definition urgency (level : option string) : option DateValidation :=
  Some {| deadline_status := None; urgency_level := level;
          days_until_deadline := None |}.

Definition status (st : string) : option DateValidation :=
  Some {| deadline_status := Some st; urgency_level := None;
          days_until_deadline := None |}.

(** Scenario E: urgency levels [low, urgent, expired, undefined]. *)
Definition lowTender : Tender :=
  withDetail None (urgency (Some "low")) (summary 1 "2024-01-01").
Definition urgentTender : Tender :=
  withDetail None (urgency (Some "urgent")) (summary 2 "2024-01-02").
Definition expiredTender : Tender :=
  withDetail None (urgency (Some "expired")) (summary 3 "2024-01-03").
Definition unratedTender : Tender :=
  withDetail None (urgency None) (summary 4 "2024-01-04").

Definition scenarioE : list Tender :=
  [lowTender; urgentTender; expiredTender; unratedTender].

(** Two tenders of the same urgency. *)
Definition highFirst : Tender :=
  withDetail None (urgency (Some "high")) (summary 7 "2024-02-01").
Definition highSecond : Tender :=
  withDetail None (urgency (Some "high")) (summary 8 "2024-02-02").

(** A deadline that is not a date, a deadline that is, and the first tender
    again without its deadline. *)
Definition tbdTender : Tender :=
  withDetail (Some "TBD") None (summary 11 "2024-03-01").
Definition datedTender : Tender :=
  withDetail (Some "2024-06-01") None (summary 12 "2024-03-02").
Definition undatedTender : Tender :=
  withDetail None None (summary 11 "2024-03-01").

(** A tender dated through [tender_date] only. *)
Definition publishedTender : Tender :=
  withTenderDate "2024-05-01" (summary 13 "2024-03-03").

(** Scenario A / B: an expired tender, an active one, one never validated. *)
Definition scenarioA : list Tender :=
  [ withDetail None (status "expired") (summary 1 "2024-01-01");
    withDetail None (status "active") (summary 2 "2024-01-02");
    summary 3 "2024-01-03" ].

(** Two tenders of the list and the enriched records the collaborator
    returns for them. *)
Definition tenderFive : Tender := summary 5 "2024-04-01".
Definition tenderSix : Tender := summary 6 "2024-04-02".
Definition enrichedFive : Tender :=
  withDetail (Some "2024-06-01") (status "active") tenderFive.
Definition enrichedSix : Tender :=
  withDetail (Some "2024-07-01") (status "urgent") tenderSix.

(* ===================================================================== *)
(** * Further parts of the component and of its callers                   *)
(* ===================================================================== *)

(** ** Urgency badge ([getUrgencyDisplay], lines 171-199) *)

Record UrgencyStyle : Type := {
  style_color : string;
  style_bg : string;
  style_border : string;
  style_icon : string;
  style_text : string
}.

(** The own properties of the [urgencyConfig] object literal. *)
Definition urgencyConfig : gmap string UrgencyStyle :=
  <["urgent" := {| style_color := "text-red-700"; style_bg := "bg-red-100";
                   style_border := "border-red-200"; style_icon := "AlertTriangle";
                   style_text := "Urgent" |}]>
  (<["high" := {| style_color := "text-orange-700"; style_bg := "bg-orange-100";
                  style_border := "border-orange-200"; style_icon := "Clock";
                  style_text := "High Priority" |}]>
  (<["medium" := {| style_color := "text-yellow-700"; style_bg := "bg-yellow-100";
                    style_border := "border-yellow-200"; style_icon := "Clock";
                    style_text := "Medium" |}]>
  (<["low" := {| style_color := "text-green-700"; style_bg := "bg-green-100";
                 style_border := "border-green-200"; style_icon := "CheckCircle";
                 style_text := "Low" |}]>
  (<["expired" := {| style_color := "text-gray-700"; style_bg := "bg-gray-100";
                     style_border := "border-gray-200"; style_icon := "Archive";
                     style_text := "Expired" |}]> ∅)))).

(** What [urgencyConfig[urgency_level]] evaluates to: one of the five own
    styles, a value inherited from [Object.prototype] (truthy, with none of
    the style fields), or [undefined]. *)
Inductive ConfigValue : Type :=
| OwnStyle (s : UrgencyStyle)
| InheritedValue
| NoValue.

(** The badge element: the style read from [config] (absent when [config] is
    an inherited value) and the number of days shown after the label. *)
Record UrgencyBadge : Type := {
  badge_style : option UrgencyStyle;
  badge_days : option Z
}.

Section UrgencyBadge.
(** The property names [Object.prototype] carries in the running page. *)
Variable Object_prototype_has : string -> bool.

(** Line 185.  An absent level reads the key [undefined] or [null], which
    [Object.prototype] does not define. *)
Definition lookupUrgencyConfig (level : option string) : ConfigValue :=
  match level with
  | None => NoValue
  | Some key =>
      match urgencyConfig !! key with
      | Some s => OwnStyle s
      | None => if Object_prototype_has key then InheritedValue else NoValue
      end
  end.

(** Lines 194-196. *)
Definition shownDays (days_until_deadline : option Z) : option Z :=
  match days_until_deadline with
  | Some d => if 0 <=? d then Some d else None
  | None => None
  end.

Definition getUrgencyDisplay (tender : Tender) : option UrgencyBadge :=
  match dateValidationOf tender with
  | None => None
  | Some dateValidation =>
      match lookupUrgencyConfig (urgency_level dateValidation) with
      | NoValue => None
      | OwnStyle s =>
          Some {| badge_style := Some s;
                  badge_days := shownDays (days_until_deadline dateValidation) |}
      | InheritedValue =>
          Some {| badge_style := None;
                  badge_days := shownDays (days_until_deadline dateValidation) |}
      end
  end.
End UrgencyBadge.

(** The properties ECMAScript gives [Object.prototype]. *)
Definition standardObjectPrototype (key : string) : bool :=
  array_includes
    ["constructor"; "hasOwnProperty"; "isPrototypeOf"; "propertyIsEnumerable";
     "toLocaleString"; "toString"; "valueOf"; "__proto__";
     "__defineGetter__"; "__defineSetter__"; "__lookupGetter__"; "__lookupSetter__"]
    key.

(** ** What the modal shows (lines 477, 502, 531-536, 722) *)

(** Line 502: [detailedTender?.detailed_info?.detailed_title ||
    selectedTender?.title || 'Tender Details']. *)
Definition modalTitle (m : ModalState) : string :=
  let detailed :=
    match detailedTender m with
    | Some t =>
        match detailed_info t with
        | Some d => detailed_title d
        | None => None
        end
    | None => None
    end in
  let selected :=
    match selectedTender m with
    | Some t => Some (title t)
    | None => None
    end in
  orEmpty (or_else (or_else detailed selected) (Some "Tender Details")).

Inductive ModalContent : Type :=
| Spinner
| DetailPanel (t : Tender)
| NoDetailPanel.

(** Lines 477 and 531-727: nothing unless the modal is open; then the
    spinner, the detail panel or the "No detailed information" panel. *)
Definition modalContent (m : ModalState) : option ModalContent :=
  if isModalOpen m then
    Some (if loadingDetails m then Spinner
          else match detailedTender m with
               | Some t => DetailPanel t
               | None => NoDetailPanel
               end)
  else None.

(** ** Escape key and scroll lock ([useEffect], lines 47-63) *)

(** The component in its page: the [keydown] listener the effect has
    registered, with the [isModalOpen] its handler closed over, and
    [document.body.style.overflow]. *)
Record Page : Type := {
  component : Loader;
  keydownListener : option bool;
  bodyOverflow : string
}.

(** The function the effect returns (lines 59-62). *)
Definition effectCleanup (p : Page) : Page :=
  {| component := component p; keydownListener := None; bodyOverflow := "unset" |}.

(** The effect body (lines 48-57). *)
Definition effectBody (p : Page) : Page :=
  if isModalOpen (modal (component p)) then
    {| component := component p;
       keydownListener := Some (isModalOpen (modal (component p)));
       bodyOverflow := "hidden" |}
  else p.

(** After a render: the effect depends on [isModalOpen] alone and is re-run,
    cleanup first, only when that changed. *)
Definition commit (wasOpen : bool) (p : Page) : Page :=
  if Bool.eqb wasOpen (isModalOpen (modal (component p))) then p
  else effectBody (effectCleanup p).

Definition mount (w : Loader) (overflow : string) : Page :=
  effectBody {| component := w; keydownListener := None; bodyOverflow := overflow |}.

(** [handleEscape] (lines 48-52) with the [isModalOpen] it closed over. *)
Definition handleEscape (isOpen : bool) (key : string) (w : Loader) : Loader :=
  if (String.eqb key "Escape" && isOpen)%bool then closeModal w else w.

Inductive PageEvent : Type :=
| KeyDown (key : string)
| Component (e : Event).

Definition pageStep (p : Page) (e : PageEvent) : option Page :=
  let wasOpen := isModalOpen (modal (component p)) in
  match e with
  | KeyDown key =>
      match keydownListener p with
      | Some isOpen =>
          Some (commit wasOpen
                  {| component := handleEscape isOpen key (component p);
                     keydownListener := keydownListener p;
                     bodyOverflow := bodyOverflow p |})
      | None => Some p
      end
  | Component e =>
      match step (component p) e with
      | Some w =>
          Some (commit wasOpen
                  {| component := w;
                     keydownListener := keydownListener p;
                     bodyOverflow := bodyOverflow p |})
      | None => None
      end
  end.

Fixpoint pageRun (p : Page) (es : list PageEvent) : option Page :=
  match es with
  | [] => Some p
  | e :: es' =>
      match pageStep p e with
      | Some p' => pageRun p' es'
      | None => None
      end
  end.

(** ** The filter controls and the Clear-all-filters button (lines 37-40, 357-361) *)

Record Controls : Type := {
  ctl_searchTerm : string;
  ctl_selectedCategory : string;
  ctl_selectedView : ViewType;
  ctl_sortBy : SortType
}.

Definition initialControls : Controls :=
  {| ctl_searchTerm := ""; ctl_selectedCategory := "all";
     ctl_selectedView := Processed; ctl_sortBy := Newest |}.

Definition clearAllFilters (c : Controls) : Controls :=
  {| ctl_searchTerm := ""; ctl_selectedCategory := "all";
     ctl_selectedView := AllTenders; ctl_sortBy := ctl_sortBy c |}.

(** [filteredTenders] for the current controls. *)
Definition filteredTenders (Date_getTime : string -> Num) (tenders : list Tender)
    (c : Controls) : Result (list Tender) :=
  derive Date_getTime tenders (ctl_selectedView c) (ctl_searchTerm c)
    (ctl_selectedCategory c) (ctl_sortBy c).

(** ** The organisation cell of the modal (lines 546-548) *)

(** A render either produces a value or is aborted by an exception. *)
Inductive Rendered (A : Type) : Type :=
| Shown (a : A)
| Uncaught (e : Exn)
| UncaughtTypeError.
Arguments Shown {A} a.
Arguments Uncaught {A} e.
Arguments UncaughtTypeError {A}.

(** [contactInfo.organization]: a TypeError on [null] and [undefined], the own
    property of an object, [undefined] on every other value. *)
Definition readOrganization (contactInfo : JsValue) : Rendered JsValue :=
  match contactInfo with
  | JUndefined | JNull => UncaughtTypeError
  | JObj fields =>
      Shown (match fields !! "organization" with
             | Some v => v
             | None => JUndefined
             end)
  | JBool _ | JNum _ _ | JStr _ | JArr _ => Shown JUndefined
  end.

Definition organizationCell (JSON_parse : string -> Result JsValue)
    (detailedTender : Tender) : Rendered JsValue :=
  let raw :=
    match detailed_info detailedTender with
    | Some d => contact_info d
    | None => JUndefined
    end in
  match parseContactInfo JSON_parse raw with
  | Throw e => Uncaught e
  | Ok contactInfo =>
      match readOrganization contactInfo with
      | Shown organization =>
          Shown (if js_truthy organization then organization
                 else JStr "Not specified")
      | Uncaught e => Uncaught e
      | UncaughtTypeError => UncaughtTypeError
      end
  end.

(** ** Dashboard counters ([updateStats], hooks/useApi.ts lines 53-62) *)

Record Stats : Type := {
  stat_total : nat;
  stat_esg : nat;
  stat_credit : nat;
  stat_pages : nat
}.

Definition updateStats {P : Type} (tenders : list Tender) (pages : list P) : Stats :=
  let esgCount := length (List.filter (fun t => String.eqb (category t) "esg") tenders) in
  let creditCount :=
    length (List.filter (fun t => String.eqb (category t) "credit_rating") tenders) in
  {| stat_total := length tenders;
     stat_esg := esgCount;
     stat_credit := creditCount;
     stat_pages := length pages |}.

(** ** The data the hook holds ([useApiData], hooks/useApi.ts) *)

(** The cells of lines 6-12 the load functions write, with the console.  The
    [loading] and [systemStatus] cells are left out. *)
Record ApiData (P K : Type) : Type := {
  api_tenders : list Tender;
  api_pages : list P;
  api_keywords : list K;
  api_stats : Stats;
  api_error : option string;
  api_console : list string
}.
Arguments api_tenders {P K} _.
Arguments api_pages {P K} _.
Arguments api_keywords {P K} _.
Arguments api_stats {P K} _.
Arguments api_error {P K} _.
Arguments api_console {P K} _.

(** What settles: a call of [loadTenders], [loadPages] or [loadKeywords]
    whose request was answered or failed, a failed [triggerExtraction]
    request, and the dismissal of the error notice. *)
Inductive ApiEvent (P K : Type) : Type :=
| TendersArrived (data : list Tender)
| TendersFailed
| PagesArrived (data : list P)
| PagesFailed
| KeywordsArrived (data : list K)
| KeywordsFailed
| ExtractionFailed
| ErrorDismissed.
Arguments TendersArrived {P K} data.
Arguments TendersFailed {P K}.
Arguments PagesArrived {P K} data.
Arguments PagesFailed {P K}.
Arguments KeywordsArrived {P K} data.
Arguments KeywordsFailed {P K}.
Arguments ExtractionFailed {P K}.
Arguments ErrorDismissed {P K}.

Definition initialApi {P K : Type} : ApiData P K :=
  {| api_tenders := []; api_pages := []; api_keywords := [];
     api_stats := {| stat_total := 0; stat_esg := 0; stat_credit := 0; stat_pages := 0 |};
     api_error := None; api_console := [] |}.

(** The catch branch of a load function: one console line and [setError]. *)
Definition loadFailed {P K : Type} (message : string) (d : ApiData P K) : ApiData P K :=
  {| api_tenders := api_tenders d; api_pages := api_pages d;
     api_keywords := api_keywords d; api_stats := api_stats d;
     api_error := Some message; api_console := api_console d ++ [message] |}.

(** The effect of lines 85-87: [updateStats] runs after a render in which
    the tenders or the pages were replaced. *)
Definition statsEffect {P K : Type} (d : ApiData P K) : ApiData P K :=
  {| api_tenders := api_tenders d; api_pages := api_pages d;
     api_keywords := api_keywords d;
     api_stats := updateStats (api_tenders d) (api_pages d);
     api_error := api_error d; api_console := api_console d |}.

Definition apiStep {P K : Type} (d : ApiData P K) (e : ApiEvent P K) : ApiData P K :=
  match e with
  | TendersArrived data =>
      statsEffect
        {| api_tenders := data; api_pages := api_pages d;
           api_keywords := api_keywords d; api_stats := api_stats d;
           api_error := api_error d; api_console := api_console d |}
  | TendersFailed => loadFailed "Failed to load tenders" d
  | PagesArrived data =>
      statsEffect
        {| api_tenders := api_tenders d; api_pages := data;
           api_keywords := api_keywords d; api_stats := api_stats d;
           api_error := api_error d; api_console := api_console d |}
  | PagesFailed => loadFailed "Failed to load pages" d
  | KeywordsArrived data =>
      {| api_tenders := api_tenders d; api_pages := api_pages d;
         api_keywords := data; api_stats := api_stats d;
         api_error := api_error d; api_console := api_console d |}
  | KeywordsFailed => loadFailed "Failed to load keywords" d
  | ExtractionFailed => loadFailed "Failed to trigger extraction" d
  | ErrorDismissed =>
      {| api_tenders := api_tenders d; api_pages := api_pages d;
         api_keywords := api_keywords d; api_stats := api_stats d;
         api_error := None; api_console := api_console d |}
  end.

Definition apiRun {P K : Type} (d : ApiData P K) (es : list (ApiEvent P K)) : ApiData P K :=
  fold_left apiStep es d.

Definition deliversTenders {P K : Type} (e : ApiEvent P K) : bool :=
  match e with
  | TendersArrived _ => true
  | _ => false
  end.

(** The message a failure puts in the error notice. *)
Definition failureMessage {P K : Type} (e : ApiEvent P K) : option string :=
  match e with
  | TendersFailed => Some "Failed to load tenders"
  | PagesFailed => Some "Failed to load pages"
  | KeywordsFailed => Some "Failed to load keywords"
  | ExtractionFailed => Some "Failed to trigger extraction"
  | TendersArrived _ | PagesArrived _ | KeywordsArrived _ | ErrorDismissed => None
  end.

(** An event that leaves the error notice as it is: a successful load. *)
Definition keepsNotice {P K : Type} (e : ApiEvent P K) : bool :=
  match e with
  | TendersArrived _ | PagesArrived _ | KeywordsArrived _ => true
  | _ => false
  end.

(** ** Vocabulary of the further statements *)

Definition viewKeeps (view : ViewType) (t : Tender) : bool :=
  match view with
  | Processed => is_processed t
  | AllTenders => true
  | Active => activeViewFilter t
  | Expired => expiredViewFilter t
  end.

Definition searchKeeps (searchTerm : string) (t : Tender) : bool :=
  (String.eqb searchTerm "" || searchFilter searchTerm t)%bool.

Definition categoryKeeps (selectedCategory : string) (t : Tender) : bool :=
  (String.eqb selectedCategory "all" || String.eqb (category t) selectedCategory)%bool.

(** A text of ASCII characters only; on such texts [toLowerCase] above is
    the whole of [String.prototype.toLowerCase]. *)
Fixpoint asciiOnly (s : string) : bool :=
  match s with
  | EmptyString => true
  | String c s' => ((nat_of_ascii c <? 128)%nat && asciiOnly s')%bool
  end.

(** [text] contains [term], letter case of ASCII letters aside. *)
Definition containsIgnoringCase (text term : string) : Prop :=
  exists before after,
    toLowerCase text = (before ++ toLowerCase term ++ after)%string.

Definition creationTime (Date_getTime : string -> Num) (t : Tender) : Num :=
  Date_getTime (created_at t).

(** A tender whose creation date parses. *)
Definition dated (Date_getTime : string -> Num) (t : Tender) : Prop :=
  exists x, creationTime Date_getTime t = Int x.

(** A state the component can be in: reached from the initial one. *)
Definition reachable (w : Loader) : Prop :=
  exists es, run initialLoader es = Some w.

(** What every reachable state satisfies. *)
Definition loaderInvariant_holds (w : Loader) : Prop :=
  (isModalOpen (modal w) = true <-> is_Some (selectedTender (modal w))) /\
  (loadingDetails (modal w) = true ->
     isModalOpen (modal w) = true /\ (0 < issued w)%nat /\
     inflight w !! (issued w - 1)%nat = selectedTender (modal w)) /\
  (forall r, is_Some (inflight w !! r) -> (r < issued w)%nat) /\
  (isModalOpen (modal w) = true -> loadingDetails (modal w) = false ->
     is_Some (detailedTender (modal w))).

(** What holds of the page after every event. *)
Definition pageInvariant_holds (p : Page) : Prop :=
  keydownListener p =
    (if isModalOpen (modal (component p)) then Some true else None) /\
  (bodyOverflow p = "hidden" <-> isModalOpen (modal (component p)) = true).

(** ** More worked collections *)

Definition titled (n : Z) (ttl : string) (descr : option string) (cat : string) : Tender :=
  {| id := n; title := ttl; description := descr; category := cat;
     tender_date := None; is_processed := true; created_at := "2024-01-01";
     detailed_info := None |}.

Definition withContact (raw : JsValue) (t : Tender) : Tender :=
  {| id := id t; title := title t; description := description t;
     category := category t; tender_date := tender_date t;
     is_processed := is_processed t; created_at := created_at t;
     detailed_info :=
       Some {| detailed_title := Some "Detailed title"; deadline := None;
               contact_info := raw; date_validation := None |} |}.

Definition createdOn (n : Z) (day : string) : Tender := summary n day.

Definition badgeTender (level : option string) (days : option Z) : Tender :=
  withDetail None
    (Some {| deadline_status := None; urgency_level := level;
             days_until_deadline := days |})
    (summary 21 "2024-05-01").

(* ===================================================================== *)
(** * Facts about the sort                                                *)
(* ===================================================================== *)

#[local] Hint Constructors Before : core.

Ltac unbind := unfold mbind, Result_bind, Js.bind in *.

Section SortFacts.
Context {A : Type}.
Implicit Types (l : list A) (x y a b : A).

Import JsSort.

Lemma Before_split a b l :
  Before a b l <-> exists p q r, l = p ++ a :: q ++ b :: r.
Proof.
  split.
  - induction 1 as [m Hin | x m _ (p & q & r & ->)].
    + apply in_split in Hin as (q & r & ->). by exists [], q, r.
    + by exists (x :: p), q, r.
  - intros (p & q & r & ->). induction p as [|x p IH]; simpl.
    + constructor. apply in_or_app. right. by left.
    + by constructor.
Qed.

(** ** Comparators that throw *)
Section Effectful.
Variable f : A -> A -> Result Num.

Lemma insertM_perm x l out : insertM f x l = Ok out -> Permutation out (x :: l).
Proof.
  revert out. induction l as [|y l IH]; simpl; intros out H.
  - by inversion H.
  - unbind. destruct (f x y) as [v|e]; [|discriminate].
    destruct (SortCompare v <=? 0).
    + by inversion H.
    + destruct (insertM f x l) as [r|e] eqn:E; [|discriminate].
      inversion H; subst. rewrite (IH r eq_refl). apply perm_swap.
Qed.

Lemma sortM_perm l out : sortM f l = Ok out -> Permutation out l.
Proof.
  revert out. induction l as [|x l IH]; simpl; intros out H.
  - by inversion H.
  - unbind. destruct (sortM f l) as [s|e]; [|discriminate].
    apply insertM_perm in H. rewrite H. by constructor; apply IH.
Qed.

Lemma sortM_short l : (length l < 2)%nat -> sortM f l = Ok l.
Proof.
  destruct l as [|x [|y l]]; simpl; intros H; try reflexivity; lia.
Qed.

Lemma sortM_throws e l :
  (forall a b, f a b = Throw e) -> (2 <= length l)%nat -> sortM f l = Throw e.
Proof.
  intros Hf. induction l as [|x l IH]; simpl; [lia|]. intros Hlen.
  destruct l as [|y [|z l]].
  - simpl in Hlen. lia.
  - simpl. unbind. by rewrite Hf.
  - unbind. rewrite IH; [reflexivity | simpl; lia].
Qed.
End Effectful.

(** ** Comparators that return *)
Section Pure.
Variable cmp : A -> A -> Num.
Abbreviation le a b := (SortCompare (cmp a b) <= 0).

Lemma insertM_pure x l : insertM (fun a b => Ok (cmp a b)) x l = Ok (insert cmp x l).
Proof.
  induction l as [|y l IH]; simpl; [reflexivity|]. unbind.
  destruct (SortCompare (cmp x y) <=? 0); [reflexivity|]. by rewrite IH.
Qed.

Lemma sortM_pure l : sortM (fun a b => Ok (cmp a b)) l = Ok (sort cmp l).
Proof.
  induction l as [|x l IH]; simpl; [reflexivity|]. unbind.
  rewrite IH. apply insertM_pure.
Qed.

Lemma sort_perm l : Permutation (sort cmp l) l.
Proof. apply (sortM_perm (fun a b => Ok (cmp a b))), sortM_pure. Qed.

Lemma insert_In x y l : In y (insert cmp x l) <-> y = x \/ In y l.
Proof.
  pose proof (insertM_perm (fun a b => Ok (cmp a b)) x l _ (insertM_pure x l)) as P.
  split; intros H.
  - apply (Permutation_in _ P) in H. destruct H; auto.
  - apply (Permutation_in _ (Permutation_sym P)). destruct H; [left|right]; auto.
Qed.

(** Inserting an element does not disturb the order of the others. *)
Lemma insert_keeps x a b l : Before a b l -> Before a b (insert cmp x l).
Proof.
  induction 1 as [m Hin | y m H IH]; simpl.
  - destruct (SortCompare (cmp x a) <=? 0); auto.
    constructor. apply insert_In. by right.
  - destruct (SortCompare (cmp x y) <=? 0); auto.
Qed.

(** An element is never inserted behind one it does not exceed. *)
Lemma insert_before a b l : le a b -> In b l -> Before a b (insert cmp a l).
Proof.
  intros Hle. induction l as [|y l IH]; simpl; [tauto|]. intros [->|Hin].
  - apply Z.leb_le in Hle. rewrite Hle. constructor. by left.
  - destruct (SortCompare (cmp a y) <=? 0).
    + constructor. by right.
    + auto.
Qed.

(** Stability, for any comparator: a pair the comparator does not put
    in the other order keeps its input order. *)
Lemma sort_keeps_order a b l : Before a b l -> le a b -> Before a b (sort cmp l).
Proof.
  intros H Hle. induction H as [m Hin | x m _ IH]; simpl.
  - apply insert_before; [done|].
    apply (Permutation_in _ (Permutation_sym (sort_perm m))), Hin.
  - by apply insert_keeps.
Qed.

(** ** Two groups, one sorting before the other *)
Section Partition.
Variable has : A -> bool.
Hypothesis first : forall x n, has x = true -> has n = false -> le x n.
Hypothesis last : forall n x, has n = false -> has x = true -> 0 < SortCompare (cmp n x).
Hypothesis tie : forall n n', has n = false -> has n' = false -> le n n'.

Lemma insert_has x s ns :
  has x = true -> Forall (fun n => has n = false) ns ->
  insert cmp x (s ++ ns) = insert cmp x s ++ ns.
Proof.
  intros Hx Hns. induction s as [|y s IH]; simpl.
  - destruct Hns as [|n ns Hn _]; simpl; [reflexivity|].
    pose proof (first x n Hx Hn) as Hle. apply Z.leb_le in Hle. by rewrite Hle.
  - destruct (SortCompare (cmp x y) <=? 0); [reflexivity|]. by rewrite IH.
Qed.

Lemma insert_lacks x s ns :
  has x = false -> Forall (fun y => has y = true) s ->
  Forall (fun n => has n = false) ns ->
  insert cmp x (s ++ ns) = s ++ x :: ns.
Proof.
  intros Hx Hs Hns. induction Hs as [|y s Hy _ IH]; simpl.
  - destruct Hns as [|n ns Hn _]; simpl; [reflexivity|].
    pose proof (tie x n Hx Hn) as Hle. apply Z.leb_le in Hle. by rewrite Hle.
  - pose proof (last x y Hx Hy) as Hlt.
    apply Z.leb_gt in Hlt. by rewrite Hlt, IH.
Qed.

Lemma sort_partition l :
  sort cmp l = sort cmp (List.filter has l) ++ List.filter (fun x => negb (has x)) l.
Proof.
  induction l as [|x l IH]; simpl; [reflexivity|].
  assert (Forall (fun n => has n = false) (List.filter (fun x => negb (has x)) l)) as Hns.
  { apply List.Forall_forall. intros n Hn. apply filter_In in Hn as [_ Hn].
    by destruct (has n). }
  assert (Forall (fun y => has y = true) (sort cmp (List.filter has l))) as Hs.
  { apply List.Forall_forall. intros y Hy.
    apply (Permutation_in _ (sort_perm _)) in Hy.
    by apply filter_In in Hy as [_ Hy]. }
  rewrite IH. destruct (has x) eqn:Hx; simpl.
  - by apply insert_has.
  - by apply insert_lacks.
Qed.
End Partition.

(** ** Comparators consistent on the elements give sorted output *)
Section Sorted.
Variable P : A -> Prop.
Hypothesis le_trans :
  forall a b c, P a -> P b -> P c -> le a b -> le b c -> le a c.
Hypothesis le_total :
  forall a b, P a -> P b -> 0 < SortCompare (cmp a b) -> le b a.

Lemma insert_sorted x l :
  P x -> Forall P l ->
  StronglySorted (fun a b => le a b) l ->
  StronglySorted (fun a b => le a b) (insert cmp x l).
Proof.
  intros Px Pl. induction 1 as [|y l Hl IH Hy]; simpl.
  - repeat constructor.
  - apply List.Forall_cons_iff in Pl as [Py Pl].
    destruct (SortCompare (cmp x y) <=? 0) eqn:E.
    + apply Z.leb_le in E. constructor; [by constructor|].
      constructor; [done|].
      apply List.Forall_forall. intros c Hc.
      apply (le_trans x y c); try done.
      * by eapply List.Forall_forall in Pl.
      * by eapply List.Forall_forall in Hy.
    + apply Z.leb_gt in E. constructor; [by apply IH|].
      apply List.Forall_forall. intros c Hc. apply insert_In in Hc as [->|Hc].
      * by apply le_total.
      * by eapply List.Forall_forall in Hy.
Qed.

Lemma sort_sorted l :
  Forall P l -> StronglySorted (fun a b => le a b) (sort cmp l).
Proof.
  induction l as [|x l IH]; simpl; [constructor|]. intros Pl.
  apply List.Forall_cons_iff in Pl as [Px Pl].
  apply insert_sorted; [done| |by apply IH].
  apply List.Forall_forall. intros y Hy.
  apply (Permutation_in _ (sort_perm l)) in Hy.
  by eapply List.Forall_forall in Pl.
Qed.
(** On a consistent comparator the model is the only stable sort: every
    sorted rearrangement that keeps the order of tied elements is the one
    [sort] returns. *)
Lemma le_refl a : P a -> le a a.
Proof.
  intros Pa. destruct (Z.leb_spec (SortCompare (cmp a a)) 0) as [H|H]; [done|].
  by apply le_total.
Qed.

Lemma tied_refl a : P a -> tied cmp a a = true.
Proof.
  intros Pa. unfold tied. pose proof (le_refl a Pa) as H.
  apply Z.leb_le in H. by rewrite H.
Qed.

Lemma tied_le a b : tied cmp a b = true <-> le a b /\ le b a.
Proof. unfold tied. by rewrite andb_true_iff, !Z.leb_le. Qed.

Lemma tied_trans a b c :
  P a -> P b -> P c ->
  tied cmp a b = true -> tied cmp a c = true -> tied cmp b c = true.
Proof.
  rewrite !tied_le. intros Pa Pb Pc [Hab Hba] [Hac Hca].
  split; [by apply (le_trans b a c) | by apply (le_trans c a b)].
Qed.

Lemma filter_tied_insert a x l :
  P a -> P x -> Forall P l ->
  List.filter (tied cmp a) (insert cmp x l) =
  List.filter (tied cmp a) (x :: l).
Proof.
  intros Pa Px Pl. induction Pl as [|y l Py Pl IH]; [reflexivity|].
  cbn [insert]. destruct (SortCompare (cmp x y) <=? 0) eqn:E; [reflexivity|].
  cbn [List.filter] in *. rewrite IH.
  destruct (tied cmp a x) eqn:Hx, (tied cmp a y) eqn:Hy; try reflexivity.
  pose proof (tied_trans a x y Pa Px Py Hx Hy) as Hxy.
  apply tied_le in Hxy as [Hxy _]. apply Z.leb_le in Hxy. congruence.
Qed.

Lemma filter_tied_sort a l :
  P a -> Forall P l ->
  List.filter (tied cmp a) (sort cmp l) = List.filter (tied cmp a) l.
Proof.
  intros Pa Pl. induction Pl as [|x l Px Pl IH]; [reflexivity|].
  cbn [sort]. rewrite filter_tied_insert; try done.
  - cbn [List.filter]. by rewrite IH.
  - apply List.Forall_forall. intros y Hy.
    apply (Permutation_in _ (sort_perm l)) in Hy.
    by eapply List.Forall_forall in Pl.
Qed.

Lemma sorted_stable_unique (o1 o2 : list A) :
  Forall P o1 -> Forall P o2 ->
  StronglySorted (fun a b => le a b) o1 ->
  StronglySorted (fun a b => le a b) o2 ->
  (forall a, P a -> List.filter (tied cmp a) o1 = List.filter (tied cmp a) o2) ->
  o1 = o2.
Proof.
  intros P1. revert o2. induction P1 as [|x o1 Px P1 IH]; intros o2 P2 S1 S2 Heq.
  - destruct P2 as [|y o2 Py _]; [reflexivity|].
    specialize (Heq y Py). cbn [List.filter] in Heq.
    by rewrite tied_refl in Heq.
  - destruct P2 as [|y o2 Py P2].
    { specialize (Heq x Px). cbn [List.filter] in Heq.
      by rewrite tied_refl in Heq. }
    apply StronglySorted_inv in S1 as [S1 Hx].
    apply StronglySorted_inv in S2 as [S2 Hy].
    assert (x = y) as <-.
    { pose proof (Heq x Px) as Ex. pose proof (Heq y Py) as Ey.
      cbn [List.filter] in Ex, Ey.
      rewrite (tied_refl x Px) in Ex. rewrite (tied_refl y Py) in Ey.
      destruct (tied cmp x y) eqn:Txy; [congruence|].
      destruct (tied cmp y x) eqn:Tyx.
      { apply tied_le in Tyx as [? ?].
        assert (tied cmp x y = true) by (by apply tied_le). congruence. }
      assert (In x o2) as Hin2.
      { assert (In x (List.filter (tied cmp x) o2)) as H by (rewrite <- Ex; by left).
        by apply filter_In in H as [H _]. }
      assert (In y o1) as Hin1.
      { assert (In y (List.filter (tied cmp y) o1)) as H by (rewrite Ey; by left).
        by apply filter_In in H as [H _]. }
      eapply List.Forall_forall in Hx; [|exact Hin1].
      eapply List.Forall_forall in Hy; [|exact Hin2].
      assert (tied cmp x y = true) by (by apply tied_le). congruence. }
    f_equal. apply IH; try done.
    intros a Pa. specialize (Heq a Pa). cbn [List.filter] in Heq.
    destruct (tied cmp a x); congruence.
Qed.

Lemma stable_sort_unique l out :
  Forall P l ->
  Permutation out l ->
  StronglySorted (fun a b => le a b) out ->
  (forall a, P a -> List.filter (tied cmp a) out = List.filter (tied cmp a) l) ->
  out = sort cmp l.
Proof.
  intros Pl Hperm Hsorted Hstable.
  assert (forall l', Permutation l' l -> Forall P l') as HP.
  { intros l' Hp. apply List.Forall_forall. intros y Hy.
    apply (Permutation_in _ Hp) in Hy. by eapply List.Forall_forall in Pl. }
  apply sorted_stable_unique; auto using sort_perm, sort_sorted.
  intros a Pa. by rewrite Hstable, filter_tied_sort.
Qed.
End Sorted.
End Pure.
End SortFacts.

(* ===================================================================== *)
(** * The pipeline: view selection and tab counts                         *)
(* ===================================================================== *)

Lemma status_in_active_urgent (o : option string) :
  array_includes ["active"; "urgent"] (orEmpty o) = true <->
  o = Some "active" \/ o = Some "urgent".
Proof.
  unfold array_includes. cbn [existsb]. rewrite !orb_true_iff, !String.eqb_eq.
  destruct o as [s|]; cbn [orEmpty]; split.
  - intros [->|[->|[=]]]; auto.
  - intros [[= ->]|[= ->]]; auto.
  - intros [H|[H|[=]]]; discriminate.
  - intros [H|H]; discriminate.
Qed.

Lemma activeViewFilter_spec (t : Tender) :
  activeViewFilter t = true <-> presumedActive t.
Proof.
  unfold activeViewFilter, presumedActive.
  destruct (dateValidationOf t) as [dv|]; [|by intuition].
  rewrite status_in_active_urgent. split.
  - intros H. right. by exists dv.
  - intros [H|(dv' & [= <-] & H)]; [discriminate | done].
Qed.

Lemma expiredViewFilter_spec (t : Tender) :
  expiredViewFilter t = true <-> provenExpired t.
Proof.
  unfold expiredViewFilter, provenExpired.
  destruct (dateValidationOf t) as [dv|].
  - destruct (deadline_status dv) as [s|] eqn:E.
    + rewrite String.eqb_eq. split.
      * intros ->. by exists dv.
      * intros (dv' & [= <-] & H). congruence.
    + split; [discriminate|]. intros (dv' & [= <-] & H). congruence.
  - split; [discriminate|]. by intros (dv' & H & _).
Qed.

Lemma statsActiveFilter_spec (t : Tender) :
  statsActiveFilter t = true <->
  exists dv, dateValidationOf t = Some dv /\
    (deadline_status dv = Some "active" \/ deadline_status dv = Some "urgent").
Proof.
  unfold statsActiveFilter.
  destruct (dateValidationOf t) as [dv|].
  - rewrite status_in_active_urgent. split.
    + intros H. by exists dv.
    + by intros (dv' & [= <-] & H).
  - split; [discriminate|]. by intros (dv' & H & _).
Qed.

(** C3. Stage 1 of the derivation: under view [active] a tender is kept iff it
    has no date-validation data or its deadline status is [active] or
    [urgent]; under view [expired] it is kept iff it has date-validation data
    whose deadline status is [expired], so a tender without date-validation
    data is never kept. *)
Theorem view_selection_spec (tenders : list Tender) (t : Tender) :
  (In t (applyView Active tenders) <-> In t tenders /\ presumedActive t) /\
  (In t (applyView Expired tenders) <-> In t tenders /\ provenExpired t) /\
  (dateValidationOf t = None -> ~ In t (applyView Expired tenders)).
Proof.
  unfold applyView. rewrite !filter_In, activeViewFilter_spec, expiredViewFilter_spec.
  repeat split; try tauto.
  intros Hnone [_ (dv & H & _)]. congruence.
Qed.

Lemma filter_length_le {A} (f g : A -> bool) (l : list A) :
  (forall x, f x = true -> g x = true) ->
  (length (List.filter f l) <= length (List.filter g l))%nat.
Proof.
  intros Hfg. induction l as [|x l IH]; simpl; [lia|].
  destruct (f x) eqn:Ef.
  - rewrite (Hfg x Ef). simpl. lia.
  - destruct (g x); simpl; lia.
Qed.

Lemma filter_length_lt {A} (f g : A -> bool) (l : list A) (x : A) :
  (forall y, f y = true -> g y = true) ->
  In x l -> f x = false -> g x = true ->
  (length (List.filter f l) < length (List.filter g l))%nat.
Proof.
  intros Hfg Hin Hf Hg. induction l as [|y l IH]; simpl; [destruct Hin|].
  destruct Hin as [->|Hin].
  - rewrite Hf, Hg. simpl. pose proof (filter_length_le f g l Hfg). lia.
  - specialize (IH Hin). destruct (f y) eqn:Ef.
    + rewrite (Hfg y Ef). simpl. lia.
    + destruct (g y); simpl; lia.
Qed.

Lemma filterStages_no_terms (view : ViewType) (tenders : list Tender) :
  filterStages view "" "all" tenders = applyView view tenders.
Proof. reflexivity. Qed.

Section PipelineFacts.
Variable Date_getTime : string -> Num.

Lemma compareTenders_returns binding sortBy a b :
  nonThrowing sortBy = true \/ is_Some binding ->
  compareTenders Date_getTime binding sortBy a b = Ok (comparison Date_getTime binding sortBy a b).
Proof.
  unfold comparison, compareTenders. intros H.
  destruct sortBy; try reflexivity.
  - by repeat case_match.
  - destruct H as [H|[score ->]]; [discriminate | reflexivity].
Qed.

Lemma sortM_ext {A} (f g : A -> A -> Result Num) (l : list A) :
  (forall a b, f a b = g a b) -> JsSort.sortM f l = JsSort.sortM g l.
Proof.
  intros Hfg. induction l as [|x l IH]; simpl; [reflexivity|]. unbind.
  rewrite IH. destruct (JsSort.sortM g l) as [s|e]; [|reflexivity].
  clear IH. induction s as [|y s IHs]; simpl; [reflexivity|]. unbind.
  by rewrite Hfg, IHs.
Qed.

Lemma getFilteredTenders_returns binding tenders view searchTerm category sortBy :
  nonThrowing sortBy = true \/ is_Some binding ->
  getFilteredTenders Date_getTime binding tenders view searchTerm category sortBy =
  Ok (JsSort.sort (comparison Date_getTime binding sortBy) (filterStages view searchTerm category tenders)).
Proof.
  intros H. unfold getFilteredTenders.
  rewrite <- sortM_pure. apply sortM_ext. intros a b.
  by apply compareTenders_returns.
Qed.

Lemma derive_perm tenders view searchTerm category sortBy out :
  derive Date_getTime tenders view searchTerm category sortBy = Ok out ->
  Permutation out (filterStages view searchTerm category tenders).
Proof. apply sortM_perm. Qed.

(** C10. The "Active" tab count and the active view use different
    predicates: [getViewStats] counts only tenders that have date-validation
    data with status [active] or [urgent], while the active view also keeps
    every tender without date-validation data.  So when the collection holds
    a tender without date-validation data, the count on the tab is strictly
    smaller than the number of tenders the active view shows (empty search,
    category [all]). *)
Theorem active_tab_undercounts (tenders : list Tender) (t : Tender)
    (Hin : In t tenders) (Hnone : dateValidationOf t = None) :
  (stats_active (getViewStats tenders) < length (applyView Active tenders))%nat /\
  (forall sortBy out,
     derive Date_getTime tenders Active "" "all" sortBy = Ok out ->
     (stats_active (getViewStats tenders) < length out)%nat) /\
  (forall sortBy, nonThrowing sortBy = true ->
     returns (derive Date_getTime tenders Active "" "all" sortBy)).
Proof.
  assert (stats_active (getViewStats tenders) < length (applyView Active tenders))%nat
    as Hlt.
  { simpl. apply (filter_length_lt _ _ _ t); try done.
    - intros y. unfold statsActiveFilter, activeViewFilter.
      by destruct (dateValidationOf y).
    - unfold statsActiveFilter. by rewrite Hnone.
    - unfold activeViewFilter. by rewrite Hnone. }
  split; [exact Hlt|]. split.
  - intros sortBy out Hout. apply derive_perm in Hout.
    rewrite filterStages_no_terms in Hout.
    by rewrite (Permutation_length Hout).
  - intros sortBy Hs. eexists. apply getFilteredTenders_returns. by left.
Qed.

End PipelineFacts.

(* ===================================================================== *)
(** * The pipeline: sorting                                               *)
(* ===================================================================== *)

Lemma getUrgencyScore_table (t : Tender) :
  getUrgencyScore t = tierScore (urgencyTier t).
Proof.
  unfold getUrgencyScore, urgencyTier, tierScore.
  destruct (dateValidationOf t) as [dv|]; [|reflexivity].
  destruct (urgency_level dv) as [level|]; [|reflexivity].
  cbn [orEmpty truthy]. destruct (String.eqb_spec level "") as [->|_]; [reflexivity|].
  cbn [negb].
  repeat (case_decide;
          [subst; reflexivity
          | match goal with
            | H : level <> ?s |- _ => apply String.eqb_neq in H; rewrite H; clear H
            end]).
  reflexivity.
Qed.

Lemma StronglySorted_weaken {A} (P : A -> Prop) (R S : A -> A -> Prop) (l : list A) :
  (forall a b, P a -> P b -> R a b -> S a b) ->
  Forall P l -> StronglySorted R l -> StronglySorted S l.
Proof.
  intros HRS Pl. induction 1 as [|x l _ IH Hx]; [constructor|].
  apply List.Forall_cons_iff in Pl as [Px Pl]. constructor; [by apply IH|].
  apply List.Forall_forall. intros y Hy.
  apply HRS; [done| |]; by eapply List.Forall_forall in Hy.
Qed.

Section Sorting.
Variable Date_getTime : string -> Num.

Abbreviation compare := (compareTenders Date_getTime).
Abbreviation derived := (derive Date_getTime).

(** With fewer than two tenders left after filtering, no comparison is
    made and every [sortBy] returns. *)
Lemma derive_short tenders view searchTerm category sortBy :
  (length (filterStages view searchTerm category tenders) < 2)%nat ->
  derived tenders view searchTerm category sortBy =
  Ok (filterStages view searchTerm category tenders).
Proof. apply sortM_short. Qed.

(** With two or more, sorting by urgency reads [getUrgencyScore] before
    its initialisation. *)
Lemma derive_urgent_throws tenders view searchTerm category :
  (2 <= length (filterStages view searchTerm category tenders))%nat ->
  derived tenders view searchTerm category Urgent =
  Throw (ReferenceError "getUrgencyScore").
Proof. intros H. by apply sortM_throws. Qed.

(** Had the binding been initialised, the urgency sort would order by
    score, highest first. *)
Lemma urgent_sorted_when_initialised tenders view searchTerm category :
  exists out,
    getFilteredTenders Date_getTime (Some getUrgencyScore) tenders view
      searchTerm category Urgent = Ok out /\
    StronglySorted (fun a b => getUrgencyScore b <= getUrgencyScore a) out.
Proof.
  eexists. split.
  - apply getFilteredTenders_returns. right. by eexists.
  - eapply (StronglySorted_weaken (fun _ => True));
      [| |apply (sort_sorted _ (fun _ => True))];
      try (by apply List.Forall_forall).
    + intros a b _ _. unfold comparison. simpl. lia.
    + intros a b c _ _ _. unfold comparison. simpl. lia.
    + intros a b _ _. unfold comparison. simpl. lia.
Qed.

(** The other three sorts keep the input order of every pair the
    comparator does not invert. *)
Lemma derive_keeps_tie_order tenders view searchTerm category sortBy :
  nonThrowing sortBy = true ->
  exists out,
    derived tenders view searchTerm category sortBy = Ok out /\
    forall a b,
      Before a b (filterStages view searchTerm category tenders) ->
      JsSort.SortCompare (comparison Date_getTime None sortBy a b) <= 0 ->
      Before a b out.
Proof.
  intros H. eexists. split.
  - apply getFilteredTenders_returns. by left.
  - intros a b. apply sort_keeps_order.
Qed.

(** ** The deadline comparator *)

Lemma compare_deadline_undated a b :
  hasDeadline a = false -> hasDeadline b = false ->
  compare None Deadline a b = Ok (Int 0).
Proof. unfold hasDeadline, compareTenders. by intros -> ->. Qed.

Lemma compare_deadline_right_undated a b :
  hasDeadline a = true -> hasDeadline b = false ->
  compare None Deadline a b = Ok (Int (-1)).
Proof. unfold hasDeadline, compareTenders. by intros -> ->. Qed.

Lemma compare_deadline_left_undated a b :
  hasDeadline a = false -> hasDeadline b = true ->
  compare None Deadline a b = Ok (Int 1).
Proof. unfold hasDeadline, compareTenders. by intros -> ->. Qed.

Lemma compare_deadline_dated a b :
  hasDeadline a = true -> hasDeadline b = true ->
  compare None Deadline a b =
  Ok (sub (Date_getTime (orEmpty (effectiveDeadline a)))
          (Date_getTime (orEmpty (effectiveDeadline b)))).
Proof. unfold hasDeadline, compareTenders. by intros -> ->. Qed.

(** The deadline sort returns the tenders that have an effective deadline,
    reordered, followed by those that have none, in input order. *)
Lemma deadline_partition tenders view searchTerm category :
  let kept := filterStages view searchTerm category tenders in
  derived tenders view searchTerm category Deadline =
  Ok (JsSort.sort (comparison Date_getTime None Deadline) (List.filter hasDeadline kept)
      ++ List.filter (fun t => negb (hasDeadline t)) kept).
Proof.
  intros kept. unfold derive.
  rewrite getFilteredTenders_returns by (by left).
  f_equal. apply sort_partition; intros x y Hx Hy; unfold comparison.
  - by rewrite compare_deadline_right_undated.
  - by rewrite compare_deadline_left_undated.
  - by rewrite compare_deadline_undated.
Qed.

Lemma deadline_dated_first tenders view searchTerm category a n :
  let kept := filterStages view searchTerm category tenders in
  In a kept -> In n kept -> hasDeadline a = true -> hasDeadline n = false ->
  exists out,
    derived tenders view searchTerm category Deadline = Ok out /\
    Before a n out /\ ~ Before n a out.
Proof.
  intros kept Ha Hn Hda Hdn. eexists. split; [apply deadline_partition|].
  fold kept.
  set (dated := JsSort.sort _ _). set (undated := List.filter _ kept).
  assert (In a dated) as Ia.
  { apply (Permutation_in _ (Permutation_sym (sort_perm _ _))).
    apply filter_In. by split. }
  assert (In n undated) as In'.
  { apply filter_In. split; [done|]. by rewrite Hdn. }
  assert (forall x, In x dated -> hasDeadline x = true) as Hdated.
  { intros x Hx. apply (Permutation_in _ (sort_perm _ _)) in Hx.
    by apply filter_In in Hx as [_ Hx]. }
  assert (forall x, In x undated -> hasDeadline x = false) as Hundated.
  { intros x Hx. apply filter_In in Hx as [_ Hx]. by destruct (hasDeadline x). }
  split.
  - apply in_split in Ia as (p & q & ->). apply in_split in In' as (r & s & ->).
    apply Before_split. exists p, (q ++ r), s.
    by rewrite <- !app_assoc.
  - clearbody dated undated. clear Ia. revert Hdated.
    induction dated as [|x dated IH]; simpl; intros Hdated.
    + clear In'. induction undated as [|y undated IHu]; inversion 1; subst.
      * rewrite Hundated in Hda; [discriminate | by right].
      * apply IHu; [|done]. intros z Hz. apply Hundated. by right.
    + inversion 1; subst.
      * rewrite Hdated in Hdn; [discriminate | by left].
      * apply IH; [|done]. intros z Hz. apply Hdated. by right.
Qed.

(** When every effective deadline kept by the filters parses, the dated
    tenders come out in ascending order of that date. *)
Lemma deadline_dated_ascending tenders view searchTerm category :
  let kept := filterStages view searchTerm category tenders in
  (forall t, In t kept -> hasDeadline t = true -> deadlineTime Date_getTime t <> NaN) ->
  StronglySorted (notLater Date_getTime)
    (JsSort.sort (comparison Date_getTime None Deadline) (List.filter hasDeadline kept)).
Proof.
  intros kept Hparse.
  set (P := fun t => hasDeadline t = true /\ exists x, deadlineTime Date_getTime t = Int x).
  assert (forall a b, P a -> P b ->
            forall x y, deadlineTime Date_getTime a = Int x -> deadlineTime Date_getTime b = Int y ->
            comparison Date_getTime None Deadline a b = Int (x - y)) as Hcmp.
  { intros a b [Ha _] [Hb _] x y Hx Hy. unfold comparison.
    rewrite compare_deadline_dated by done.
    fold (deadlineTime Date_getTime a) (deadlineTime Date_getTime b). by rewrite Hx, Hy. }
  assert (Forall P (List.filter hasDeadline kept)) as HP.
  { apply List.Forall_forall. intros t Ht. apply filter_In in Ht as [Hin Hd].
    split; [done|]. specialize (Hparse t Hin Hd).
    destruct (deadlineTime Date_getTime t) as [|x]; [done | by exists x]. }
  eapply (StronglySorted_weaken P); [| |apply (sort_sorted _ P)]; try done.
  - intros a b Pa Pb Hle x y Hx Hy. cbv beta in Hle.
    rewrite (Hcmp a b Pa Pb x y Hx Hy) in Hle. simpl in Hle. lia.
  - apply List.Forall_forall. intros t Ht.
    apply (Permutation_in _ (sort_perm _ _)) in Ht.
    by eapply List.Forall_forall in HP.
  - intros a b c Pa Pb Pc.
    destruct Pa as [Ha [x Hx]], Pb as [Hb [y Hy]], Pc as [Hc [z Hz]].
    rewrite (Hcmp a b) with (x := x) (y := y) by (done || split; eauto).
    rewrite (Hcmp b c) with (x := y) (y := z) by (done || split; eauto).
    rewrite (Hcmp a c) with (x := x) (y := z) by (done || split; eauto).
    simpl. lia.
  - intros a b Pa Pb.
    destruct Pa as [Ha [x Hx]], Pb as [Hb [y Hy]].
    rewrite (Hcmp a b) with (x := x) (y := y) by (done || split; eauto).
    rewrite (Hcmp b a) with (x := y) (y := x) by (done || split; eauto).
    simpl. lia.
Qed.

End Sorting.

(* ===================================================================== *)
(** * The pipeline: claims about sorting                                  *)
(* ===================================================================== *)

(** C5. The urgency score of the four tenders of Scenario E is 2, 5, 1, 0,
    as the score table says; but the derivation under [sortBy = 'urgent']
    does not return them in the order [urgent, low, expired, undefined]: the
    comparator reads [getUrgencyScore] before line 131 has initialised it and
    the derivation throws.  With the binding initialised the same call
    returns exactly that order. *)
Theorem urgent_sort_scenario_E (getTime : string -> Num) (t : Tender) :
  getUrgencyScore t = tierScore (urgencyTier t) /\
  map getUrgencyScore scenarioE = [2; 5; 1; 0] /\
  derive getTime scenarioE Processed "" "all" Urgent =
    Throw (ReferenceError "getUrgencyScore") /\
  getFilteredTenders getTime (Some getUrgencyScore) scenarioE Processed "" "all" Urgent =
    Ok [urgentTender; lowTender; expiredTender; unratedTender].
Proof. split; [apply getUrgencyScore_table | repeat split; reflexivity]. Qed.

(** C9. Two tenders of equal urgency, sorted by urgency: the derivation
    throws instead of returning them in input order.  With the binding
    initialised the same call returns them in input order. *)
Theorem urgent_sort_tie (getTime : string -> Num) :
  getUrgencyScore highFirst = getUrgencyScore highSecond /\
  derive getTime [highFirst; highSecond] Processed "" "all" Urgent =
    Throw (ReferenceError "getUrgencyScore") /\
  getFilteredTenders getTime (Some getUrgencyScore) [highFirst; highSecond]
    Processed "" "all" Urgent = Ok [highFirst; highSecond].
Proof. repeat split; reflexivity. Qed.

(** C4, as stated, fails: under the deadline sort a tender whose deadline is
    the text "TBD" stays in front of a dated tender, while the same tender
    without a deadline is moved behind it. *)
Lemma malformed_deadline_not_last :
  exists out out',
    derive UtcDate.getTime [tbdTender; datedTender] Processed "" "all" Deadline = Ok out /\
    derive UtcDate.getTime [undatedTender; datedTender] Processed "" "all" Deadline = Ok out' /\
    UtcDate.getTime "TBD" = NaN /\
    out = [tbdTender; datedTender] /\
    out' = [datedTender; undatedTender] /\
    map id out <> map id out'.
Proof.
  eexists _, _. split; [reflexivity|]. split; [reflexivity|].
  repeat split. discriminate.
Qed.

(** C4, amended. Under [newest], [oldest] and [deadline] the derivation
    returns for every collection, whatever its date strings.  A date string
    that fails to parse is not treated as absent: under the deadline sort a
    tender whose effective deadline does not parse compares equal to every
    tender that has an effective deadline, and sorts before every tender that
    has none. *)
Theorem malformed_dates_do_not_throw (getTime : string -> Num)
    (tenders : list Tender) (view : ViewType) (searchTerm category : string)
    (sortBy : SortType) (Hsort : nonThrowing sortBy = true) :
  returns (derive getTime tenders view searchTerm category sortBy) /\
  forall a b,
    hasDeadline a = true -> deadlineTime getTime a = NaN ->
    (hasDeadline b = true ->
       JsSort.SortCompare (comparison getTime None Deadline a b) = 0 /\
       JsSort.SortCompare (comparison getTime None Deadline b a) = 0) /\
    (hasDeadline b = false ->
       compareTenders getTime None Deadline a b = Ok (Int (-1)) /\
       compareTenders getTime None Deadline b a = Ok (Int 1) /\
       (In a (filterStages view searchTerm category tenders) ->
        In b (filterStages view searchTerm category tenders) ->
        exists out,
          derive getTime tenders view searchTerm category Deadline = Ok out /\
          Before a b out /\ ~ Before b a out)).
Proof.
  split.
  - eexists. apply getFilteredTenders_returns. by left.
  - intros a b Hdl Hnan. split.
    + intros Hb. unfold comparison.
      rewrite !compare_deadline_dated by done.
      fold (deadlineTime getTime a) (deadlineTime getTime b). rewrite Hnan.
      by destruct (deadlineTime getTime b).
    + intros Hb. split; [by apply compare_deadline_right_undated|].
      split; [by apply compare_deadline_left_undated|].
      intros Ha Hb'. by apply deadline_dated_first.
Qed.

Lemma malformed_dates_do_not_throw_witness :
  returns (derive UtcDate.getTime [undatedTender; tbdTender; datedTender]
             Processed "" "all" Deadline) /\
  JsSort.SortCompare (comparison UtcDate.getTime None Deadline tbdTender datedTender) = 0 /\
  compareTenders UtcDate.getTime None Deadline tbdTender undatedTender = Ok (Int (-1)).
Proof.
  destruct (malformed_dates_do_not_throw UtcDate.getTime
              [undatedTender; tbdTender; datedTender] Processed "" "all" Deadline
              eq_refl) as (H1 & H2).
  split; [exact H1|]. split.
  - exact (proj1 (proj1 (H2 tbdTender datedTender eq_refl eq_refl) eq_refl)).
  - exact (proj1 (proj2 (H2 tbdTender undatedTender eq_refl eq_refl) eq_refl)).
Defined.

(** C6. Under [sortBy = 'deadline'] a tender's sort key is its effective
    deadline, [detailed_info.deadline] when present and [tender_date]
    otherwise: the comparator looks at nothing else.  Tenders without an
    effective deadline come after all that have one (and the dated ones come
    in ascending order when all their dates parse); when exactly one of two
    tenders lacks it, the other sorts first; and two tenders whose effective
    deadlines parse compare by those dates alone, whichever field held them. *)
Theorem deadline_sort_spec (getTime : string -> Num)
    (tenders : list Tender) (view : ViewType) (searchTerm category : string)
    (a b : Tender) :
  let kept := filterStages view searchTerm category tenders in
  let cmp := compareTenders getTime None Deadline in
  effectiveDeadline a =
    (if truthy (deadlineOf a) then deadlineOf a else tender_date a) /\
  (forall a' b',
     effectiveDeadline a' = effectiveDeadline a ->
     effectiveDeadline b' = effectiveDeadline b ->
     cmp a' b' = cmp a b) /\
  (exists dated,
     derive getTime tenders view searchTerm category Deadline =
       Ok (dated ++ List.filter (fun t => negb (hasDeadline t)) kept) /\
     Permutation dated (List.filter hasDeadline kept) /\
     ((forall t, In t kept -> hasDeadline t = true -> deadlineTime getTime t <> NaN) ->
      StronglySorted (notLater getTime) dated)) /\
  (hasDeadline a = true -> hasDeadline b = false ->
     cmp a b = Ok (Int (-1)) /\ cmp b a = Ok (Int 1) /\
     (In a kept -> In b kept ->
      exists out,
        derive getTime tenders view searchTerm category Deadline = Ok out /\
        Before a b out /\ ~ Before b a out)) /\
  (forall x y,
     hasDeadline a = true -> hasDeadline b = true ->
     deadlineTime getTime a = Int x -> deadlineTime getTime b = Int y ->
     cmp a b = Ok (Int (x - y))).
Proof.
  intros kept cmp. split; [reflexivity|]. split; [|split; [|split]].
  - intros a' b' Ha Hb. unfold cmp, compareTenders. by rewrite Ha, Hb.
  - eexists. split; [apply deadline_partition|]. split; [apply sort_perm|].
    apply deadline_dated_ascending.
  - intros Ha Hb. split; [by apply compare_deadline_right_undated|].
    split; [by apply compare_deadline_left_undated|].
    intros Hia Hib. by apply deadline_dated_first.
  - intros x y Ha Hb Hx Hy. unfold cmp.
    rewrite compare_deadline_dated by done.
    fold (deadlineTime getTime a) (deadlineTime getTime b). by rewrite Hx, Hy.
Qed.

Lemma deadline_sort_spec_witness :
  compareTenders UtcDate.getTime None Deadline datedTender publishedTender =
    Ok (Int (1717200000000 - 1714521600000)) /\
  compareTenders UtcDate.getTime None Deadline datedTender undatedTender = Ok (Int (-1)) /\
  exists out,
    derive UtcDate.getTime [undatedTender; datedTender; publishedTender]
      Processed "" "all" Deadline = Ok out /\
    Before datedTender undatedTender out.
Proof.
  destruct (deadline_sort_spec UtcDate.getTime
              [undatedTender; datedTender; publishedTender] Processed "" "all"
              datedTender publishedTender) as (_ & _ & _ & _ & H1).
  destruct (deadline_sort_spec UtcDate.getTime
              [undatedTender; datedTender; publishedTender] Processed "" "all"
              datedTender undatedTender) as (_ & _ & _ & H2 & _).
  split; [exact (H1 _ _ eq_refl eq_refl eq_refl eq_refl)|].
  destruct (H2 eq_refl eq_refl) as (H3 & _ & H4).
  split; [exact H3|].
  destruct H4 as (out & Hout & Hb & _).
  - simpl. tauto.
  - simpl. tauto.
  - by exists out.
Defined.

(** Scenarios A and B. *)
Example scenarioA_active :
  map id (applyView Active scenarioA) = [2; 3] /\
  map id (applyView Expired scenarioA) = [1].
Proof. split; reflexivity. Qed.

Lemma view_selection_spec_witness :
  In (summary 3 "2024-01-03") (applyView Active scenarioA) /\
  ~ In (summary 3 "2024-01-03") (applyView Expired scenarioA).
Proof.
  destruct (view_selection_spec scenarioA (summary 3 "2024-01-03")) as (H1 & _ & H3).
  split.
  - apply H1. split; [simpl; tauto | left; reflexivity].
  - apply H3. reflexivity.
Defined.

Lemma active_tab_undercounts_witness :
  (stats_active (getViewStats scenarioA) < length (applyView Active scenarioA))%nat /\
  stats_active (getViewStats scenarioA) = 1%nat /\
  derive UtcDate.getTime scenarioA Active "" "all" Newest =
    Ok [summary 3 "2024-01-03"; withDetail None (status "active") (summary 2 "2024-01-02")].
Proof.
  split; [|split; reflexivity].
  apply (active_tab_undercounts UtcDate.getTime scenarioA (summary 3 "2024-01-03")).
  - simpl. tauto.
  - reflexivity.
Defined.

(* ===================================================================== *)
(** * Contact info normaliser: claims                                     *)
(* ===================================================================== *)

Section ContactInfoFacts.
Variable JSON_parse : string -> Result JsValue.

Lemma parseContactInfo_parsed (text : string) (v : JsValue) :
  JSON_parse text = Ok v -> parseContactInfo JSON_parse (JStr text) = Ok v.
Proof. intros H. unfold parseContactInfo. by rewrite H. Qed.

Lemma parseContactInfo_object (fields : gmap string JsValue) :
  parseContactInfo JSON_parse (JObj fields) = Ok (JObj fields).
Proof. reflexivity. Qed.

Lemma parseContactInfo_returns (raw : JsValue) :
  returns (parseContactInfo JSON_parse raw).
Proof.
  destruct raw; try (eexists; reflexivity).
  unfold parseContactInfo. destruct (JSON_parse s); eexists; reflexivity.
Qed.
End ContactInfoFacts.

(** C7. A string that [JSON.parse] rejects is normalised to the structure
    whose only field is [organization], holding the raw string; the
    normaliser returns on every input, it never throws; and an absent input
    ([undefined] or [null]) gives the empty structure. *)
Theorem parseContactInfo_spec (JSON_parse : string -> Result JsValue) :
  (forall text e,
     JSON_parse text = Throw e ->
     parseContactInfo JSON_parse (JStr text) =
       Ok (JObj {[ "organization" := JStr text ]})) /\
  (forall raw, returns (parseContactInfo JSON_parse raw)) /\
  parseContactInfo JSON_parse JUndefined = Ok (JObj ∅) /\
  parseContactInfo JSON_parse JNull = Ok (JObj ∅).
Proof.
  split; [|split; [apply parseContactInfo_returns | split; reflexivity]].
  intros text e Hfail. unfold parseContactInfo. by rewrite Hfail.
Qed.

(** Scenario D. *)
Lemma parseContactInfo_spec_witness :
  JSON.parse "Ministry of Finance" = Throw SyntaxError /\
  parseContactInfo JSON.parse (JStr "Ministry of Finance") =
    Ok (JObj {[ "organization" := JStr "Ministry of Finance" ]}).
Proof.
  split; [reflexivity|].
  exact (proj1 (parseContactInfo_spec JSON.parse) "Ministry of Finance"
           SyntaxError eq_refl).
Defined.

(* ===================================================================== *)
(** * Detail loader: claims                                               *)
(* ===================================================================== *)

Lemma run_app (w : Loader) (es1 es2 : list Event) :
  run w (es1 ++ es2) =
  match run w es1 with
  | Some w1 => run w1 es2
  | None => None
  end.
Proof.
  revert w. induction es1 as [|e es1 IH]; intros w; simpl; [reflexivity|].
  destruct (step w e); [apply IH | reflexivity].
Qed.

(** A response changes [detailedTender] and [loadingDetails] only, and
    removes its request from those in flight. *)
Lemma step_response (w w' : Loader) (e : Event) :
  isResponse e = true -> step w e = Some w' ->
  isModalOpen (modal w') = isModalOpen (modal w) /\
  selectedTender (modal w') = selectedTender (modal w) /\
  loadingDetails (modal w') = false /\
  (exists t, detailedTender (modal w') = Some t) /\
  (forall r t, inflight w' !! r = Some t -> inflight w !! r = Some t).
Proof.
  destruct e as [t| |r d|r]; try discriminate; intros _; simpl;
    destruct (inflight w !! r) as [t|] eqn:E; try discriminate;
    intros [= <-]; simpl; repeat split; eauto;
    intros r' t' H; apply lookup_delete_Some in H; tauto.
Qed.

Lemma run_responses (es : list Event) (w w' : Loader) :
  forallb isResponse es = true -> run w es = Some w' ->
  isModalOpen (modal w') = isModalOpen (modal w) /\
  selectedTender (modal w') = selectedTender (modal w) /\
  (loadingDetails (modal w) = false -> loadingDetails (modal w') = false) /\
  (forall r t, inflight w' !! r = Some t -> inflight w !! r = Some t).
Proof.
  revert w. induction es as [|e es IH]; simpl; intros w Hall Hrun.
  - by inversion Hrun; subst.
  - apply andb_true_iff in Hall as [He Hes].
    destruct (step w e) as [w1|] eqn:E; [|discriminate].
    destruct (step_response _ _ _ He E) as (H1 & H2 & H3 & _ & H5).
    destruct (IH w1 Hes Hrun) as (I1 & I2 & I3 & I4).
    repeat split; try congruence; auto.
Qed.

(** C1, as stated, fails: the answer to a request made before the view was
    closed arrives afterwards and is stored as the detail record, so the
    loader is not left in the state [closeModal] established. *)
Lemma stale_response_after_close :
  exists w,
    run initialLoader [Select tenderFive; Close; Fulfil 0 enrichedFive] = Some w /\
    detailedTender (modal w) = Some enrichedFive /\
    ~ idle (modal w).
Proof.
  eexists. split; [reflexivity|]. split; [reflexivity|]. discriminate.
Qed.

(** C1, amended. After [closeModal], responses that arrive later do not
    reopen the view: [isModalOpen] stays false, [selectedTender] stays null
    and [loadingDetails] stays false.  They do overwrite [detailedTender]:
    after a late fulfilment it holds the fetched record, after a late
    rejection the summary tender of the request that failed. *)
Theorem late_response_after_close (w w' : Loader) (es : list Event)
    (Hresp : forallb isResponse es = true)
    (Hrun : run (closeModal w) es = Some w') :
  isModalOpen (modal w') = false /\
  selectedTender (modal w') = None /\
  loadingDetails (modal w') = false /\
  (es = [] -> detailedTender (modal w') = None) /\
  (forall es0 r d, es = es0 ++ [Fulfil r d] -> detailedTender (modal w') = Some d) /\
  (forall es0 r, es = es0 ++ [Reject r] ->
     exists t, inflight w !! r = Some t /\ detailedTender (modal w') = Some t).
Proof.
  destruct (run_responses es _ _ Hresp Hrun) as (H1 & H2 & H3 & _).
  split; [exact H1|]. split; [exact H2|]. split; [by apply H3|].
  split; [|split].
  - intros ->. by inversion Hrun.
  - intros es0 r d ->. rewrite run_app in Hrun.
    destruct (run (closeModal w) es0) as [w1|]; [|discriminate].
    simpl in Hrun. destruct (inflight w1 !! r); [|discriminate].
    by inversion Hrun.
  - intros es0 r ->. rewrite run_app in Hrun.
    rewrite forallb_app in Hresp. apply andb_true_iff in Hresp as [Hresp _].
    destruct (run (closeModal w) es0) as [w1|] eqn:E0; [|discriminate].
    destruct (run_responses es0 _ _ Hresp E0) as (_ & _ & _ & Hsub).
    simpl in Hrun. destruct (inflight w1 !! r) as [t|] eqn:Er; [|discriminate].
    exists t. split; [by apply (Hsub r t)|]. by inversion Hrun.
Qed.

Lemma late_response_after_close_witness :
  exists w',
    run (closeModal (openModal_begin tenderFive initialLoader))
      [Fulfil 0 enrichedFive] = Some w' /\
    isModalOpen (modal w') = false /\
    selectedTender (modal w') = None /\
    detailedTender (modal w') = Some enrichedFive.
Proof.
  eexists. split; [reflexivity|].
  destruct (late_response_after_close
              (openModal_begin tenderFive initialLoader) _
              [Fulfil 0 enrichedFive] eq_refl eq_refl) as (H1 & H2 & _ & _ & H5 & _).
  split; [exact H1|]. split; [exact H2|].
  exact (H5 [] 0%nat enrichedFive eq_refl).
Defined.

(** C2, as stated, fails: tender 6 is selected while the request for
    tender 5 is outstanding; the answer for 6 arrives, then the answer for 5,
    and the view for tender 6 ends up showing the record of tender 5. *)
Lemma superseded_response_overwrites :
  exists w,
    run initialLoader [Select tenderFive; Close; Select tenderSix;
                       Fulfil 1 enrichedSix; Fulfil 0 enrichedFive] = Some w /\
    isModalOpen (modal w) = true /\
    selectedTender (modal w) = Some tenderSix /\
    detailedTender (modal w) = Some enrichedFive /\
    id enrichedFive <> id tenderSix.
Proof.
  eexists. split; [reflexivity|]. repeat split. discriminate.
Qed.

(** C2, amended. The answer to any request in flight, most recent selection
    or not, becomes the displayed detail record and clears the loading flag,
    leaving the selection as it is; so the record displayed at the end is the
    one whose answer arrived last. *)
Theorem last_response_wins (w w1 : Loader) (es : list Event) (r : nat)
    (t detailed : Tender)
    (Hrun : run w es = Some w1)
    (Hin : inflight w1 !! r = Some t) :
  exists w',
    run w (es ++ [Fulfil r detailed]) = Some w' /\
    detailedTender (modal w') = Some detailed /\
    loadingDetails (modal w') = false /\
    selectedTender (modal w') = selectedTender (modal w1) /\
    isModalOpen (modal w') = isModalOpen (modal w1).
Proof.
  exists (openModal_fulfilled r detailed w1).
  rewrite run_app, Hrun. simpl. rewrite Hin. repeat split.
Qed.

Lemma last_response_wins_witness :
  exists w',
    run initialLoader ([Select tenderFive; Close; Select tenderSix]
                       ++ [Fulfil 0 enrichedFive]) = Some w' /\
    detailedTender (modal w') = Some enrichedFive /\
    selectedTender (modal w') = Some tenderSix.
Proof.
  destruct (last_response_wins initialLoader _
              [Select tenderFive; Close; Select tenderSix] 0%nat tenderFive
              enrichedFive eq_refl eq_refl) as (w' & H1 & H2 & _ & H4 & _).
  exists w'. split; [exact H1|]. split; [exact H2|]. exact H4.
Defined.

(** C8. Selecting a tender shows its summary at once, with the loading flag
    set; when the detail request is rejected the loader ends with that same
    summary tender as the displayed record and the loading flag cleared, the
    view still open on the selection; the failure adds one line to the
    console and nothing else. *)
Theorem fetch_failure_falls_back (w : Loader) (tender : Tender) :
  let w1 := openModal_begin tender w in
  isModalOpen (modal w1) = true /\
  selectedTender (modal w1) = Some tender /\
  loadingDetails (modal w1) = true /\
  exists w2,
    step w1 (Reject (issued w)) = Some w2 /\
    modal w2 = {| isModalOpen := true;
                  selectedTender := Some tender;
                  detailedTender := Some tender;
                  loadingDetails := false |} /\
    console w2 = console w ++ ["Failed to load tender details:"].
Proof.
  simpl. repeat split. eexists. rewrite lookup_insert_eq. repeat split.
Qed.

(** Scenario C. *)
Example scenarioC :
  exists w,
    run initialLoader [Select tenderFive; Reject 0] = Some w /\
    modal w = {| isModalOpen := true; selectedTender := Some tenderFive;
                 detailedTender := Some tenderFive; loadingDetails := false |}.
Proof. eexists. split; reflexivity. Qed.

(* ===================================================================== *)
(** * Further properties: the filter stages                               *)
(* ===================================================================== *)

Lemma append_cons (c : ascii) (a b : string) :
  (String c a ++ b)%string = String c (a ++ b)%string.
Proof. reflexivity. Qed.

Lemma prefix_spec (sub s : string) :
  String.prefix sub s = true <-> exists rest, s = (sub ++ rest)%string.
Proof.
  revert s. induction sub as [|c sub IH]; intros s.
  - split; [intros _; by exists s | intros _; by destruct s].
  - destruct s as [|c' s]; cbn [String.prefix].
    + split; [discriminate | intros (rest & H); by rewrite append_cons in H].
    + destruct (Ascii.ascii_dec c c') as [->|Hne].
      * rewrite IH. split; intros (rest & H); exists rest.
        -- by rewrite append_cons, <- H.
        -- rewrite append_cons in H. congruence.
      * split; [discriminate|]. intros (rest & H).
        rewrite append_cons in H. congruence.
Qed.

(** [includes] is the substring test. *)
Lemma includes_spec (s sub : string) :
  includes s sub = true <-> exists before after, s = (before ++ sub ++ after)%string.
Proof.
  induction s as [|c s IH]; cbn [includes]; rewrite orb_true_iff, prefix_spec.
  - split.
    + intros [(rest & H)|H]; [|discriminate]. by exists "", rest.
    + intros (before & after & H). left.
      destruct before; [by exists after | by rewrite append_cons in H].
  - rewrite IH. split.
    + intros [(rest & H)|(before & after & H)].
      * by exists "", rest.
      * exists (String c before), after. by rewrite append_cons, <- H.
    + intros (before & after & H). destruct before as [|c' before].
      * left. by exists after.
      * right. exists before, after. rewrite append_cons in H. congruence.
Qed.

Lemma toLowerCase_empty (s : string) : toLowerCase s = "" -> s = "".
Proof. by destruct s. Qed.

Lemma searchFilter_spec (searchTerm : string) (t : Tender) :
  searchTerm <> "" ->
  searchFilter searchTerm t = true <->
  containsIgnoringCase (title t) searchTerm \/
  exists d, description t = Some d /\ containsIgnoringCase d searchTerm.
Proof.
  intros Hterm. unfold searchFilter, containsIgnoringCase.
  rewrite orb_true_iff, includes_spec. apply or_iff_compat_l.
  destruct (description t) as [d|]; [|split; [discriminate | by intros (d & H & _)]].
  rewrite andb_true_iff, includes_spec, negb_true_iff. split.
  - intros [_ H]. by exists d.
  - intros (d' & [= <-] & before & after & H). split; [|by exists before, after].
    apply String.eqb_neq. intros ->. cbn [toLowerCase] in H.
    destruct before; [|by rewrite append_cons in H].
    destruct (toLowerCase searchTerm) eqn:E; [|by rewrite append_cons in H].
    by apply toLowerCase_empty in E.
Qed.

(** X1. On ASCII text the search stage keeps exactly the tenders whose title,
    or whose description when there is one, contains the search term, letter
    case aside; an empty term keeps every tender. *)
Theorem search_keeps_matching_text (searchTerm : string) (filtered : list Tender)
    (t : Tender)
    (Hterm : asciiOnly searchTerm = true)
    (Htitle : asciiOnly (title t) = true)
    (Hdescr : forall d, description t = Some d -> asciiOnly d = true) :
  applySearch "" filtered = filtered /\
  (searchTerm <> "" ->
   (In t (applySearch searchTerm filtered) <->
    In t filtered /\
    (containsIgnoringCase (title t) searchTerm \/
     exists d, description t = Some d /\ containsIgnoringCase d searchTerm))).
Proof.
  split; [reflexivity|]. intros Hne. unfold applySearch.
  apply String.eqb_neq in Hne as Hb. rewrite Hb. cbn [negb].
  by rewrite filter_In, searchFilter_spec.
Qed.

Lemma search_keeps_matching_text_witness :
  In (titled 31 "Carbon AUDIT services" None "esg")
     (applySearch "audit"
        [titled 30 "Road works" (Some "resurfacing") "both";
         titled 31 "Carbon AUDIT services" None "esg"]).
Proof.
  destruct (search_keeps_matching_text "audit"
              [titled 30 "Road works" (Some "resurfacing") "both";
               titled 31 "Carbon AUDIT services" None "esg"]
              (titled 31 "Carbon AUDIT services" None "esg")
              eq_refl eq_refl) as [_ H].
  - intros d Hd. discriminate.
  - apply H; [discriminate|]. split; [simpl; tauto|].
    left. by exists "carbon ", " services".
Defined.

Lemma filter_filter {A} (f g : A -> bool) (l : list A) :
  List.filter f (List.filter g l) = List.filter (fun x => (g x && f x)%bool) l.
Proof.
  induction l as [|x l IH]; simpl; [reflexivity|].
  destruct (g x); simpl; [destruct (f x)|]; by rewrite IH.
Qed.

Lemma filter_ext_eq {A} (f g : A -> bool) (l : list A) :
  (forall x, f x = g x) -> List.filter f l = List.filter g l.
Proof. intros H. induction l as [|x l IH]; simpl; [reflexivity|]. by rewrite H, IH. Qed.

Lemma applyView_filter view l : applyView view l = List.filter (viewKeeps view) l.
Proof.
  destruct view; try reflexivity. simpl. induction l as [|x l IH]; simpl; congruence.
Qed.

Lemma applySearch_filter searchTerm l :
  applySearch searchTerm l = List.filter (searchKeeps searchTerm) l.
Proof.
  unfold applySearch, searchKeeps. destruct (String.eqb searchTerm ""); simpl.
  - induction l as [|x l IH]; simpl; congruence.
  - reflexivity.
Qed.

Lemma applyCategory_filter selectedCategory l :
  applyCategory selectedCategory l = List.filter (categoryKeeps selectedCategory) l.
Proof.
  unfold applyCategory, categoryKeeps. destruct (String.eqb selectedCategory "all"); simpl.
  - induction l as [|x l IH]; simpl; congruence.
  - reflexivity.
Qed.

Lemma filterStages_filter view searchTerm category l :
  filterStages view searchTerm category l =
  List.filter (fun t => (viewKeeps view t && searchKeeps searchTerm t
                         && categoryKeeps category t)%bool) l.
Proof.
  unfold filterStages.
  rewrite applyView_filter, applySearch_filter, applyCategory_filter.
  rewrite !filter_filter. apply filter_ext_eq. intros x.
  by destruct (viewKeeps view x), (searchKeeps searchTerm x).
Qed.

(** X2. The three filter stages act as one filter: a tender passes iff it
    passes each stage on its own, so the stages can be applied in any order
    and filtering an already filtered list changes nothing. *)
Theorem filter_stages_compose (view : ViewType) (searchTerm category : string)
    (tenders : list Tender) :
  (forall t, In t (filterStages view searchTerm category tenders) <->
             In t tenders /\ viewKeeps view t = true /\
             searchKeeps searchTerm t = true /\ categoryKeeps category t = true) /\
  applyView view (applySearch searchTerm (applyCategory category tenders)) =
    filterStages view searchTerm category tenders /\
  applySearch searchTerm (applyCategory category (applyView view tenders)) =
    filterStages view searchTerm category tenders /\
  filterStages view searchTerm category (filterStages view searchTerm category tenders) =
    filterStages view searchTerm category tenders.
Proof.
  split; [|split; [|split]].
  - intros t. rewrite filterStages_filter, filter_In, !andb_true_iff. tauto.
  - rewrite filterStages_filter, applyView_filter, applySearch_filter,
      applyCategory_filter, !filter_filter.
    apply filter_ext_eq. intros x.
    by destruct (viewKeeps view x), (searchKeeps searchTerm x), (categoryKeeps category x).
  - rewrite filterStages_filter, applyView_filter, applySearch_filter,
      applyCategory_filter, !filter_filter.
    apply filter_ext_eq. intros x.
    by destruct (viewKeeps view x), (searchKeeps searchTerm x), (categoryKeeps category x).
  - rewrite !filterStages_filter, filter_filter. apply filter_ext_eq. intros x.
    by destruct (viewKeeps view x), (searchKeeps searchTerm x), (categoryKeeps category x).
Qed.

(** X3. A tender whose category is not the selected one is dropped by every
    selection other than [all]; in particular the two selectable categories
    never show a tender of category [both]. *)
Theorem category_both_only_under_all (selectedCategory : string)
    (filtered : list Tender) (t : Tender)
    (Hsel : selectedCategory = "esg" \/ selectedCategory = "credit_rating")
    (Hboth : category t = "both") :
  ~ In t (applyCategory selectedCategory filtered) /\
  (In t filtered -> In t (applyCategory "all" filtered)).
Proof.
  split; [|done].
  rewrite applyCategory_filter, filter_In. unfold categoryKeeps. rewrite Hboth.
  intros [_ H]. by destruct Hsel as [-> | ->].
Qed.

Lemma category_both_only_under_all_witness :
  ~ In (titled 30 "Road works" (Some "resurfacing") "both")
       (applyCategory "esg" [titled 30 "Road works" (Some "resurfacing") "both"]).
Proof.
  exact (proj1 (category_both_only_under_all "esg"
                  [titled 30 "Road works" (Some "resurfacing") "both"]
                  (titled 30 "Road works" (Some "resurfacing") "both")
                  (or_introl eq_refl) eq_refl)).
Defined.

(* ===================================================================== *)
(** * Further properties: the derived list                                *)
(* ===================================================================== *)

(** X4. Whatever the controls, a derivation that returns gives a
    rearrangement of the tenders that pass the filters: every tender shown
    comes from the collection, none is shown more often than it occurs there,
    and the list is never longer than the collection. *)
Theorem derive_selects_from_input (getTime : string -> Num) (tenders : list Tender)
    (view : ViewType) (searchTerm category : string) (sortBy : SortType)
    (out : list Tender)
    (Hout : derive getTime tenders view searchTerm category sortBy = Ok out) :
  Permutation out (filterStages view searchTerm category tenders) /\
  (forall t, In t out -> In t tenders) /\
  (length out <= length tenders)%nat /\
  (List.NoDup tenders -> List.NoDup out).
Proof.
  pose proof (derive_perm _ _ _ _ _ _ _ Hout) as Hperm.
  split; [exact Hperm|]. rewrite filterStages_filter in Hperm. split; [|split].
  - intros t Ht. apply (Permutation_in _ Hperm) in Ht.
    by apply filter_In in Ht as [Ht _].
  - rewrite (Permutation_length Hperm). apply List.filter_length_le.
  - intros Hnd. apply (Permutation_NoDup (Permutation_sym Hperm)).
    by apply List.NoDup_filter.
Qed.

Lemma derive_selects_from_input_witness :
  Permutation [datedTender; undatedTender]
    (filterStages Processed "" "all" [undatedTender; datedTender]).
Proof.
  exact (proj1 (derive_selects_from_input UtcDate.getTime
                  [undatedTender; datedTender] Processed "" "all" Deadline
                  [datedTender; undatedTender] eq_refl)).
Defined.

(** X5. Sorting by urgency returns exactly when fewer than two tenders pass
    the filters, and then returns them as they are; with two or more the
    derivation throws.  In particular an empty collection is derived to the
    empty list under every setting of the controls. *)
Theorem urgent_sort_returns_iff_short (getTime : string -> Num)
    (tenders : list Tender) (view : ViewType) (searchTerm category : string)
    (sortBy : SortType) :
  let kept := filterStages view searchTerm category tenders in
  ((length kept < 2)%nat ->
   derive getTime tenders view searchTerm category sortBy = Ok kept) /\
  ((2 <= length kept)%nat ->
   derive getTime tenders view searchTerm category Urgent =
     Throw (ReferenceError "getUrgencyScore")) /\
  derive getTime [] view searchTerm category sortBy = Ok [].
Proof.
  intros kept. split; [apply derive_short|]. split; [apply derive_urgent_throws|].
  pose proof (derive_short getTime [] view searchTerm category sortBy) as H.
  rewrite filterStages_filter in H. apply H. simpl. lia.
Qed.

Lemma urgent_sort_returns_iff_short_witness :
  derive UtcDate.getTime [highFirst] Processed "" "all" Urgent = Ok [highFirst] /\
  derive UtcDate.getTime [highFirst; highSecond; lowTender] Processed "" "all" Urgent =
    Throw (ReferenceError "getUrgencyScore").
Proof.
  split.
  - apply (proj1 (urgent_sort_returns_iff_short UtcDate.getTime [highFirst]
                    Processed "" "all" Urgent)).
    simpl. lia.
  - apply (proj1 (proj2 (urgent_sort_returns_iff_short UtcDate.getTime
                           [highFirst; highSecond; lowTender] Processed "" "all" Urgent))).
    simpl. lia.
Defined.

(** X6. "Clear all filters" resets the search term, the category and the view
    and keeps the sort order; under the three date sorts the list then shows
    every tender of the collection, so the empty state disappears unless the
    collection itself is empty. *)
Theorem clear_all_filters_shows_everything (getTime : string -> Num)
    (tenders : list Tender) (c : Controls)
    (Hsort : nonThrowing (ctl_sortBy c) = true) :
  exists out,
    filteredTenders getTime tenders (clearAllFilters c) = Ok out /\
    Permutation out tenders /\
    (out = [] <-> tenders = []).
Proof.
  unfold filteredTenders, clearAllFilters. cbn [ctl_selectedView ctl_searchTerm
    ctl_selectedCategory ctl_sortBy].
  eexists. split; [apply getFilteredTenders_returns; by left|].
  assert (Permutation
            (JsSort.sort (comparison getTime None (ctl_sortBy c))
               (filterStages AllTenders "" "all" tenders)) tenders) as Hperm.
  { apply sort_perm. }
  split; [exact Hperm|]. split.
  - intros H. rewrite H in Hperm. by apply Permutation_nil in Hperm.
  - intros ->. reflexivity.
Qed.

Lemma clear_all_filters_shows_everything_witness :
  exists out,
    filteredTenders UtcDate.getTime scenarioA (clearAllFilters initialControls) = Ok out /\
    Permutation out scenarioA.
Proof.
  destruct (clear_all_filters_shows_everything UtcDate.getTime scenarioA
              initialControls eq_refl) as (out & H1 & H2 & _).
  by exists out.
Defined.

Lemma status_not_both (o : option string) :
  array_includes ["active"; "urgent"] (orEmpty o) = true ->
  match o with Some st => String.eqb st "expired" | None => false end = false.
Proof.
  intros H. apply status_in_active_urgent in H as [-> | ->]; reflexivity.
Qed.

Lemma filter_disjoint_length {A} (f g : A -> bool) (l : list A) :
  (forall x, f x = true -> g x = false) ->
  (length (List.filter f l) + length (List.filter g l) <= length l)%nat.
Proof.
  intros H. induction l as [|x l IH]; simpl; [lia|].
  destruct (f x) eqn:Ef.
  - rewrite (H x Ef). simpl. lia.
  - destruct (g x); simpl; lia.
Qed.

(** X7. No tender is shown by both the active and the expired view, and the
    two tab counts never add up to more than the total; a tender that has
    date-validation data with any other deadline status (or none) is shown
    by neither view. *)
Theorem active_and_expired_are_disjoint (tenders : list Tender) (t : Tender) :
  ~ (In t (applyView Active tenders) /\ In t (applyView Expired tenders)) /\
  (stats_active (getViewStats tenders) + stats_expired (getViewStats tenders)
     <= stats_all (getViewStats tenders))%nat /\
  (forall dv,
     dateValidationOf t = Some dv ->
     deadline_status dv <> Some "active" ->
     deadline_status dv <> Some "urgent" ->
     deadline_status dv <> Some "expired" ->
     ~ In t (applyView Active tenders) /\ ~ In t (applyView Expired tenders)).
Proof.
  split; [|split].
  - unfold applyView. rewrite !filter_In. intros [[_ Ha] [_ He]].
    unfold activeViewFilter, expiredViewFilter in *.
    destruct (dateValidationOf t) as [dv|]; [|discriminate].
    apply status_not_both in Ha. congruence.
  - cbn [getViewStats stats_active stats_expired stats_all].
    apply filter_disjoint_length. intros x Hx.
    unfold statsActiveFilter, expiredViewFilter in *.
    destruct (dateValidationOf x) as [dv|]; [|reflexivity].
    by apply status_not_both.
  - intros dv Hdv H1 H2 H3. unfold applyView. rewrite !filter_In.
    rewrite activeViewFilter_spec, expiredViewFilter_spec.
    unfold presumedActive, provenExpired. rewrite Hdv. split.
    + intros [_ [H|(dv' & [= <-] & [H|H])]]; congruence.
    + intros [_ (dv' & [= <-] & H)]. congruence.
Qed.

Lemma active_and_expired_are_disjoint_witness :
  ~ In (withDetail None (status "unknown") (summary 9 "2024-01-09"))
       (applyView Active [withDetail None (status "unknown") (summary 9 "2024-01-09")]) /\
  ~ In (withDetail None (status "unknown") (summary 9 "2024-01-09"))
       (applyView Expired [withDetail None (status "unknown") (summary 9 "2024-01-09")]).
Proof.
  destruct (active_and_expired_are_disjoint
              [withDetail None (status "unknown") (summary 9 "2024-01-09")]
              (withDetail None (status "unknown") (summary 9 "2024-01-09")))
    as (_ & _ & H).
  apply (H _ eq_refl); discriminate.
Defined.

Lemma filter_split_length {A} (f g h : A -> bool) (l : list A) :
  (forall x, g x = (f x || h x)%bool) ->
  (forall x, f x = true -> h x = false) ->
  length (List.filter g l) = (length (List.filter f l) + length (List.filter h l))%nat.
Proof.
  intros Hg Hd. induction l as [|x l IH]; simpl; [reflexivity|].
  rewrite Hg. destruct (f x) eqn:Ef.
  - rewrite (Hd x Ef). simpl. lia.
  - destruct (h x); simpl; lia.
Qed.

(** X8. With no search term and category [all], the number of tenders a view
    shows equals the count on its tab for the processed, all and expired
    views; for the active view it exceeds the tab count by exactly the number
    of tenders without date-validation data. *)
Theorem tab_counts_and_views (getTime : string -> Num) (tenders : list Tender)
    (view : ViewType) (sortBy : SortType) (out : list Tender)
    (Hout : derive getTime tenders view "" "all" sortBy = Ok out) :
  let stats := getViewStats tenders in
  let unvalidated :=
    List.filter (fun t => match dateValidationOf t with
                          | None => true
                          | Some _ => false
                          end) tenders in
  length out =
  match view with
  | Processed => stats_processed stats
  | AllTenders => stats_all stats
  | Active => (stats_active stats + length unvalidated)%nat
  | Expired => stats_expired stats
  end.
Proof.
  intros stats unvalidated. apply derive_perm in Hout.
  rewrite filterStages_no_terms in Hout. rewrite (Permutation_length Hout).
  destruct view; try reflexivity.
  cbn [applyView]. subst stats unvalidated. cbn [getViewStats stats_active].
  apply filter_split_length; intros x;
    unfold activeViewFilter, statsActiveFilter;
    destruct (dateValidationOf x); by rewrite ?orb_false_r.
Qed.

Lemma tab_counts_and_views_witness :
  length [summary 3 "2024-01-03"; withDetail None (status "active") (summary 2 "2024-01-02")]
  = (stats_active (getViewStats scenarioA) + 1)%nat.
Proof.
  exact (tab_counts_and_views UtcDate.getTime scenarioA Active Newest
           [summary 3 "2024-01-03"; withDetail None (status "active") (summary 2 "2024-01-02")]
           eq_refl).
Defined.

(* ===================================================================== *)
(** * Further properties: newest first, oldest first                      *)
(* ===================================================================== *)

Lemma StronglySorted_snoc {A} (R : A -> A -> Prop) (l : list A) (x : A) :
  StronglySorted R l -> Forall (fun y => R y x) l -> StronglySorted R (l ++ [x]).
Proof.
  induction 1 as [|y l Hl IH Hy]; intros Hx; simpl.
  - repeat constructor.
  - apply List.Forall_cons_iff in Hx as [Hyx Hx]. constructor; [by apply IH|].
    apply List.Forall_app. split; [done | by constructor].
Qed.

Lemma StronglySorted_rev {A} (R : A -> A -> Prop) (l : list A) :
  StronglySorted R l -> StronglySorted (fun a b => R b a) (rev l).
Proof.
  induction 1 as [|x l Hl IH Hx]; simpl; [constructor|].
  apply StronglySorted_snoc; [done|].
  apply List.Forall_forall. intros y Hy. apply in_rev in Hy.
  by eapply List.Forall_forall in Hx.
Qed.

Lemma filter_rev {A} (f : A -> bool) (l : list A) :
  List.filter f (rev l) = rev (List.filter f l).
Proof.
  induction l as [|x l IH]; simpl; [reflexivity|].
  rewrite List.filter_app, IH. simpl. destruct (f x); simpl; [reflexivity|].
  by rewrite app_nil_r.
Qed.

Lemma filter_at_most_one {A B} (f : A -> B) (g : A -> bool) (v : B) (l : list A) :
  List.NoDup (map f l) ->
  (forall x, In x l -> g x = true -> f x = v) ->
  (length (List.filter g l) <= 1)%nat.
Proof.
  induction l as [|x l IH]; simpl; intros Hnd Hg; [lia|].
  apply List.NoDup_cons_iff in Hnd as [Hx Hnd].
  destruct (g x) eqn:Ex; [|apply IH; auto].
  assert (List.filter g l = []) as ->; [|simpl; lia].
  destruct (List.filter g l) as [|y l'] eqn:E; [reflexivity|]. exfalso.
  assert (In y (List.filter g l)) as Hy by (rewrite E; by left).
  apply filter_In in Hy as [Hin Hgy]. apply Hx.
  rewrite (Hg x (or_introl eq_refl) Ex), <- (Hg y (or_intror Hin) Hgy).
  by apply in_map.
Qed.

Lemma rev_short {A} (l : list A) : (length l <= 1)%nat -> rev l = l.
Proof. destruct l as [|x [|y l]]; simpl; intros H; try reflexivity; lia. Qed.

Section Recency.
Variable Date_getTime : string -> Num.

Abbreviation time := (creationTime Date_getTime).
Abbreviation newest := (comparison Date_getTime None Newest).
Abbreviation oldest := (comparison Date_getTime None Oldest).

Lemma newest_value a b x y :
  time a = Int x -> time b = Int y -> newest a b = Int (y - x).
Proof.
  unfold comparison, compareTenders, creationTime. by intros -> ->.
Qed.

Lemma oldest_value a b x y :
  time a = Int x -> time b = Int y -> oldest a b = Int (x - y).
Proof.
  unfold comparison, compareTenders, creationTime. by intros -> ->.
Qed.

Lemma newest_trans a b c :
  dated Date_getTime a -> dated Date_getTime b -> dated Date_getTime c ->
  JsSort.SortCompare (newest a b) <= 0 -> JsSort.SortCompare (newest b c) <= 0 ->
  JsSort.SortCompare (newest a c) <= 0.
Proof.
  intros [x Hx] [y Hy] [z Hz].
  rewrite (newest_value a b x y), (newest_value b c y z), (newest_value a c x z);
    simpl; try done; lia.
Qed.

Lemma newest_total a b :
  dated Date_getTime a -> dated Date_getTime b ->
  0 < JsSort.SortCompare (newest a b) -> JsSort.SortCompare (newest b a) <= 0.
Proof.
  intros [x Hx] [y Hy].
  rewrite (newest_value a b x y), (newest_value b a y x); simpl; try done; lia.
Qed.

Lemma oldest_trans a b c :
  dated Date_getTime a -> dated Date_getTime b -> dated Date_getTime c ->
  JsSort.SortCompare (oldest a b) <= 0 -> JsSort.SortCompare (oldest b c) <= 0 ->
  JsSort.SortCompare (oldest a c) <= 0.
Proof.
  intros [x Hx] [y Hy] [z Hz].
  rewrite (oldest_value a b x y), (oldest_value b c y z), (oldest_value a c x z);
    simpl; try done; lia.
Qed.

Lemma oldest_total a b :
  dated Date_getTime a -> dated Date_getTime b ->
  0 < JsSort.SortCompare (oldest a b) -> JsSort.SortCompare (oldest b a) <= 0.
Proof.
  intros [x Hx] [y Hy].
  rewrite (oldest_value a b x y), (oldest_value b a y x); simpl; try done; lia.
Qed.

Lemma all_dated (l : list Tender) :
  (forall t, In t l -> time t <> NaN) -> Forall (dated Date_getTime) l.
Proof.
  intros H. apply List.Forall_forall. intros t Ht. specialize (H t Ht).
  unfold dated. destruct (time t) as [|x]; [done | by exists x].
Qed.

Lemma recency_tie a b :
  time a = time b ->
  JsSort.SortCompare (newest a b) <= 0 /\ JsSort.SortCompare (oldest a b) <= 0.
Proof.
  unfold comparison, compareTenders, creationTime. intros ->.
  destruct (Date_getTime (created_at b)); simpl; lia.
Qed.

End Recency.

(** X9. When the creation dates of the tenders that pass the filters all
    parse, "newest first" lists them from the latest creation time to the
    earliest and "oldest first" from the earliest to the latest, and both
    keep tenders created at the same time in the order of the collection. *)
Theorem recency_sorts_order_by_creation_time (getTime : string -> Num)
    (tenders : list Tender) (view : ViewType) (searchTerm category : string)
    (Hparse : forall t, In t (filterStages view searchTerm category tenders) ->
                        creationTime getTime t <> NaN) :
  let kept := filterStages view searchTerm category tenders in
  exists newestFirst oldestFirst,
    derive getTime tenders view searchTerm category Newest = Ok newestFirst /\
    derive getTime tenders view searchTerm category Oldest = Ok oldestFirst /\
    StronglySorted
      (fun a b => forall x y, creationTime getTime a = Int x ->
                              creationTime getTime b = Int y -> y <= x) newestFirst /\
    StronglySorted
      (fun a b => forall x y, creationTime getTime a = Int x ->
                              creationTime getTime b = Int y -> x <= y) oldestFirst /\
    (forall a b, Before a b kept -> creationTime getTime a = creationTime getTime b ->
                 Before a b newestFirst /\ Before a b oldestFirst).
Proof.
  intros kept. pose proof (all_dated getTime kept Hparse) as Hd.
  assert (forall cmp, Forall (dated getTime) (JsSort.sort cmp kept)) as Hds.
  { intros cmp. apply List.Forall_forall. intros t Ht.
    apply (Permutation_in _ (sort_perm cmp kept)) in Ht.
    by eapply List.Forall_forall in Hd. }
  eexists _, _. split; [apply getFilteredTenders_returns; by left|].
  split; [apply getFilteredTenders_returns; by left|].
  fold kept. split; [|split].
  - refine (StronglySorted_weaken (dated getTime) _ _ _ _ (Hds _)
              (sort_sorted _ (dated getTime) (newest_trans getTime)
                 (newest_total getTime) _ Hd)).
    intros a b _ _ Hle x y Hx Hy. cbv beta in Hle.
    rewrite (newest_value getTime a b x y Hx Hy) in Hle. simpl in Hle. lia.
  - refine (StronglySorted_weaken (dated getTime) _ _ _ _ (Hds _)
              (sort_sorted _ (dated getTime) (oldest_trans getTime)
                 (oldest_total getTime) _ Hd)).
    intros a b _ _ Hle x y Hx Hy. cbv beta in Hle.
    rewrite (oldest_value getTime a b x y Hx Hy) in Hle. simpl in Hle. lia.
  - intros a b Hab Heq. destruct (recency_tie getTime a b Heq) as [Hn Ho].
    split; by apply sort_keeps_order.
Qed.

Lemma recency_sorts_order_by_creation_time_witness :
  exists newestFirst,
    derive UtcDate.getTime
      [createdOn 1 "2024-01-02"; createdOn 2 "2024-01-03"; createdOn 3 "2024-01-01"]
      Processed "" "all" Newest = Ok newestFirst /\
    StronglySorted
      (fun a b => forall x y, creationTime UtcDate.getTime a = Int x ->
                              creationTime UtcDate.getTime b = Int y -> y <= x)
      newestFirst.
Proof.
  destruct (recency_sorts_order_by_creation_time UtcDate.getTime
              [createdOn 1 "2024-01-02"; createdOn 2 "2024-01-03"; createdOn 3 "2024-01-01"]
              Processed "" "all") as (n & o & Hn & _ & Hs & _).
  - intros t [<-|[<-|[<-|[]]]]; discriminate.
  - by exists n.
Defined.

Lemma tied_newest_same_time (getTime : string -> Num) (a x : Tender) :
  dated getTime a -> dated getTime x ->
  tied (comparison getTime None Newest) a x = true ->
  creationTime getTime x = creationTime getTime a.
Proof.
  intros [u Hu] [v Hv]. unfold tied.
  rewrite (newest_value getTime a x u v Hu Hv), (newest_value getTime x a v u Hv Hu).
  rewrite andb_true_iff, !Z.leb_le. simpl. intros [H1 H2].
  rewrite Hu, Hv. f_equal. lia.
Qed.

Lemma tied_oldest_newest (getTime : string -> Num) (a x : Tender) :
  tied (comparison getTime None Oldest) a x = tied (comparison getTime None Newest) a x.
Proof. unfold tied. apply andb_comm. Qed.

(** X10. When the creation dates of the tenders that pass the filters parse
    and are all different, "oldest first" is "newest first" read
    backwards. *)
Theorem oldest_first_reverses_newest_first (getTime : string -> Num)
    (tenders : list Tender) (view : ViewType) (searchTerm category : string)
    (Hparse : forall t, In t (filterStages view searchTerm category tenders) ->
                        creationTime getTime t <> NaN)
    (Hdistinct : List.NoDup (map (creationTime getTime)
                               (filterStages view searchTerm category tenders))) :
  exists newestFirst,
    derive getTime tenders view searchTerm category Newest = Ok newestFirst /\
    derive getTime tenders view searchTerm category Oldest = Ok (rev newestFirst).
Proof.
  set (kept := filterStages view searchTerm category tenders) in *.
  pose proof (all_dated getTime kept Hparse) as Hd.
  eexists. split; [apply getFilteredTenders_returns; by left|].
  unfold derive. rewrite getFilteredTenders_returns by (by left). fold kept.
  f_equal. symmetry.
  apply (stable_sort_unique _ (dated getTime) (oldest_trans getTime)
           (oldest_total getTime)); [done| | |].
  - rewrite <- Permutation_rev. apply sort_perm.
  - eapply (StronglySorted_weaken (dated getTime));
      [| |apply StronglySorted_rev,
           (sort_sorted _ (dated getTime) (newest_trans getTime)
              (newest_total getTime) _ Hd)].
    + intros a b [x Hx] [y Hy] Hle. cbv beta in Hle.
      rewrite (newest_value getTime b a y x Hy Hx) in Hle.
      rewrite (oldest_value getTime a b x y Hx Hy). simpl in *. lia.
    + apply List.Forall_forall. intros t Ht. apply in_rev in Ht.
      apply (Permutation_in _ (sort_perm _ kept)) in Ht.
      by eapply List.Forall_forall in Hd.
  - intros a Pa. rewrite filter_rev.
    rewrite (filter_ext_eq _ _ _ (tied_oldest_newest getTime a)).
    rewrite (filter_tied_sort _ (dated getTime) (newest_trans getTime)) by done.
    rewrite (filter_ext_eq _ _ kept (tied_oldest_newest getTime a)).
    apply rev_short.
    apply (filter_at_most_one (creationTime getTime) _ (creationTime getTime a));
      [done|].
    intros x Hx Ht. apply tied_newest_same_time; [done| |done].
    by eapply List.Forall_forall in Hd.
Qed.

Lemma oldest_first_reverses_newest_first_witness :
  exists newestFirst,
    derive UtcDate.getTime
      [createdOn 1 "2024-01-02"; createdOn 2 "2024-01-03"; createdOn 3 "2024-01-01"]
      Processed "" "all" Oldest = Ok (rev newestFirst).
Proof.
  destruct (oldest_first_reverses_newest_first UtcDate.getTime
              [createdOn 1 "2024-01-02"; createdOn 2 "2024-01-03"; createdOn 3 "2024-01-01"]
              Processed "" "all") as (n & _ & Ho).
  - intros t [<-|[<-|[<-|[]]]]; discriminate.
  - vm_compute. repeat constructor; simpl; intuition discriminate.
  - by exists n.
Defined.

(* ===================================================================== *)
(** * Further properties: the urgency badge                               *)
(* ===================================================================== *)

Lemma urgencyConfig_score (key : string) :
  urgencyConfig !! key = None <-> tierScore (Some key) = 0.
Proof.
  unfold urgencyConfig, tierScore. rewrite !lookup_insert, lookup_empty.
  repeat case_decide; subst; try done; split; try done; discriminate.
Qed.

(** X11. For a tender whose urgency level does not name a property of
    [Object.prototype], the badge and the score agree: a badge is rendered
    exactly when the urgency score is not zero, it carries the style the
    configuration gives that level, and the number of days it shows is the
    tender's [days_until_deadline], shown only when that is zero or more. *)
Theorem badge_agrees_with_score (Object_prototype_has : string -> bool) (t : Tender)
    (Hplain : forall level, urgencyTier t = Some level ->
                            Object_prototype_has level = false) :
  (getUrgencyDisplay Object_prototype_has t = None <-> getUrgencyScore t = 0) /\
  (forall badge,
     getUrgencyDisplay Object_prototype_has t = Some badge ->
     exists dv level,
       dateValidationOf t = Some dv /\ urgency_level dv = Some level /\
       badge_style badge = urgencyConfig !! level /\
       is_Some (badge_style badge) /\
       forall d, badge_days badge = Some d <->
                 days_until_deadline dv = Some d /\ 0 <= d).
Proof.
  rewrite getUrgencyScore_table. unfold getUrgencyDisplay, urgencyTier in *.
  destruct (dateValidationOf t) as [dv|]; [|split; [done | discriminate]].
  destruct (urgency_level dv) as [level|] eqn:El; cbn [lookupUrgencyConfig];
    [|split; [done | discriminate]].
  rewrite <- urgencyConfig_score. rewrite (Hplain level eq_refl).
  destruct (urgencyConfig !! level) as [s|] eqn:Ec.
  - split; [split; discriminate|].
    intros badge [= <-]. exists dv, level. cbn [badge_style badge_days].
    split; [done|]. split; [done|]. split; [done|]. split; [by eexists|].
    intros d. unfold shownDays. split.
    + destruct (days_until_deadline dv) as [d'|]; [|discriminate].
      destruct (Z.leb_spec 0 d'); [|discriminate]. by intros [= <-].
    + intros [-> Hd]. apply Z.leb_le in Hd. by rewrite Hd.
  - split; [done|]. intros badge H. discriminate.
Qed.

Lemma badge_agrees_with_score_witness :
  getUrgencyDisplay standardObjectPrototype (badgeTender (Some "high") (Some (-3))) <> None /\
  getUrgencyScore (badgeTender (Some "high") (Some (-3))) = 4.
Proof.
  destruct (badge_agrees_with_score standardObjectPrototype
              (badgeTender (Some "high") (Some (-3)))) as [H _].
  - intros level [= <-]. reflexivity.
  - split; [|reflexivity]. intros Hnone. apply H in Hnone. discriminate.
Defined.

(** X12. When the urgency level is not one of the five configured levels but
    names a property [Object.prototype] carries, the lookup yields that
    inherited value: a badge element is produced although the urgency score
    is zero, and none of the style fields is defined for it. *)
Theorem badge_for_inherited_key (Object_prototype_has : string -> bool) (t : Tender)
    (dv : DateValidation) (level : string)
    (Hdv : dateValidationOf t = Some dv)
    (Hlevel : urgency_level dv = Some level)
    (Hown : urgencyConfig !! level = None)
    (Hproto : Object_prototype_has level = true) :
  getUrgencyDisplay Object_prototype_has t =
    Some {| badge_style := None;
            badge_days := shownDays (days_until_deadline dv) |} /\
  getUrgencyScore t = 0.
Proof.
  split.
  - unfold getUrgencyDisplay. rewrite Hdv, Hlevel. cbn [lookupUrgencyConfig].
    by rewrite Hown, Hproto.
  - rewrite getUrgencyScore_table. unfold urgencyTier. rewrite Hdv, Hlevel.
    by apply urgencyConfig_score.
Qed.

Lemma badge_for_inherited_key_witness :
  getUrgencyDisplay standardObjectPrototype (badgeTender (Some "constructor") (Some 2)) =
    Some {| badge_style := None; badge_days := Some 2 |} /\
  getUrgencyScore (badgeTender (Some "constructor") (Some 2)) = 0.
Proof.
  exact (badge_for_inherited_key standardObjectPrototype
           (badgeTender (Some "constructor") (Some 2)) _ "constructor"
           eq_refl eq_refl eq_refl eq_refl).
Defined.

(* ===================================================================== *)
(** * Further properties: the detail loader                               *)
(* ===================================================================== *)

(** X13. The successful path: selecting a tender shows the spinner; when the
    request for it is fulfilled the view, still on that selection, shows the
    detail panel with the fetched record; nothing is written to the
    console. *)
Theorem fetch_success_shows_detail (w : Loader) (tender detailed : Tender) :
  let w1 := openModal_begin tender w in
  modalContent (modal w1) = Some Spinner /\
  exists w2,
    step w1 (Fulfil (issued w) detailed) = Some w2 /\
    modal w2 = {| isModalOpen := true;
                  selectedTender := Some tender;
                  detailedTender := Some detailed;
                  loadingDetails := false |} /\
    modalContent (modal w2) = Some (DetailPanel detailed) /\
    console w2 = console w.
Proof.
  simpl. split; [reflexivity|]. eexists. rewrite lookup_insert_eq.
  repeat split.
Qed.

Lemma step_invariant (w w' : Loader) (e : Event) :
  loaderInvariant_holds w -> step w e = Some w' -> loaderInvariant_holds w'.
Proof.
  intros (I1 & I2 & I3 & I4) Hstep.
  destruct e as [t| |r d|r]; simpl in Hstep.
  - inversion Hstep; subst; clear Hstep.
    unfold loaderInvariant_holds; simpl. split; [|split; [|split]].
    + split; [intros _; by eexists | done].
    + intros _. split; [done|]. split; [lia|].
      rewrite Nat.sub_0_r. apply lookup_insert_eq.
    + intros r Hr. destruct (decide (issued w = r)) as [<-|Hne]; [lia|].
      rewrite lookup_insert_ne in Hr by done. specialize (I3 r Hr). lia.
    + discriminate.
  - inversion Hstep; subst; clear Hstep.
    unfold loaderInvariant_holds; simpl. split; [|split; [|split]].
    + split; [discriminate | intros [? H]; discriminate].
    + discriminate.
    + exact I3.
    + discriminate.
  - destruct (inflight w !! r) as [t|] eqn:E; [|discriminate].
    inversion Hstep; subst; clear Hstep.
    unfold loaderInvariant_holds; simpl. split; [|split; [|split]].
    + exact I1.
    + discriminate.
    + intros r' [t' Hr']. apply lookup_delete_Some in Hr' as [_ Hr'].
      apply I3. by eexists.
    + intros _ _. by eexists.
  - destruct (inflight w !! r) as [t|] eqn:E; [|discriminate].
    inversion Hstep; subst; clear Hstep.
    unfold loaderInvariant_holds; simpl. split; [|split; [|split]].
    + exact I1.
    + discriminate.
    + intros r' [t' Hr']. apply lookup_delete_Some in Hr' as [_ Hr'].
      apply I3. by eexists.
    + intros _ _. by eexists.
Qed.

Lemma run_invariant (es : list Event) (w w' : Loader) :
  loaderInvariant_holds w -> run w es = Some w' -> loaderInvariant_holds w'.
Proof.
  revert w. induction es as [|e es IH]; simpl; intros w Hw Hrun.
  - by inversion Hrun; subst.
  - destruct (step w e) as [w1|] eqn:E; [|discriminate].
    eapply IH; [|exact Hrun]. by eapply step_invariant.
Qed.

Lemma reachable_invariant (w : Loader) : reachable w -> loaderInvariant_holds w.
Proof.
  intros [es Hes]. eapply run_invariant; [|exact Hes].
  unfold loaderInvariant_holds; simpl. split; [|split; [|split]].
  - split; [discriminate | intros [? H]; discriminate].
  - discriminate.
  - intros r [t Hr]. by rewrite lookup_empty in Hr.
  - discriminate.
Qed.

(** X14. In every state the component can reach: the modal is open exactly
    when a tender is selected; while the loading flag is set the modal is
    open and the request made for the selected tender, the latest one issued,
    is still in flight; and every request in flight was issued earlier. *)
Theorem loader_state_is_consistent (w : Loader) (Hreach : reachable w) :
  (isModalOpen (modal w) = true <-> is_Some (selectedTender (modal w))) /\
  (loadingDetails (modal w) = true ->
     isModalOpen (modal w) = true /\ (0 < issued w)%nat /\
     inflight w !! (issued w - 1)%nat = selectedTender (modal w)) /\
  (forall r, is_Some (inflight w !! r) -> (r < issued w)%nat).
Proof.
  destruct (reachable_invariant w Hreach) as (I1 & I2 & I3 & _).
  split; [exact I1|]. split; [exact I2 | exact I3].
Qed.

Lemma loader_state_is_consistent_witness :
  inflight (openModal_begin tenderSix (closeModal (openModal_begin tenderFive initialLoader)))
    !! 1%nat = Some tenderSix.
Proof.
  destruct (loader_state_is_consistent
              (openModal_begin tenderSix
                 (closeModal (openModal_begin tenderFive initialLoader))))
    as (_ & H & _).
  - by exists [Select tenderFive; Close; Select tenderSix].
  - exact (proj2 (proj2 (H eq_refl))).
Defined.

(** X15. As long as every response carries a tender record, the "No detailed
    information available" panel is never shown: in every reachable state an
    open modal shows the spinner or a detail panel. *)
Theorem no_detail_panel_is_unreachable (w : Loader) (Hreach : reachable w) :
  modalContent (modal w) <> Some NoDetailPanel.
Proof.
  destruct (reachable_invariant w Hreach) as (_ & _ & _ & I4).
  unfold modalContent.
  destruct (isModalOpen (modal w)); [|discriminate].
  destruct (loadingDetails (modal w)); [discriminate|].
  destruct (I4 eq_refl eq_refl) as [t ->]. discriminate.
Qed.

Lemma no_detail_panel_is_unreachable_witness :
  exists w,
    run initialLoader [Select tenderFive; Reject 0] = Some w /\
    modalContent (modal w) <> Some NoDetailPanel.
Proof.
  eexists. split; [reflexivity|].
  apply no_detail_panel_is_unreachable.
  by exists [Select tenderFive; Reject 0%nat].
Defined.

(** X16. A record that arrived after the modal was closed stays in
    [detailedTender], and the modal reopened on another tender is headed by
    the detailed title of that stale record while the spinner shows; without
    the late response the header is the title of the new selection. *)
Theorem stale_title_after_reopen (w : Loader) (r : nat) (t stale next : Tender)
    (info : DetailedTenderInfo) (heading : string)
    (Hin : inflight w !! r = Some t)
    (Hinfo : detailed_info stale = Some info)
    (Htitle : detailed_title info = Some heading)
    (Hheading : heading <> "")
    (Hnext : title next <> "") :
  (exists w',
     run (closeModal w) [Fulfil r stale; Select next] = Some w' /\
     selectedTender (modal w') = Some next /\
     modalContent (modal w') = Some Spinner /\
     modalTitle (modal w') = heading) /\
  modalTitle (modal (openModal_begin next (closeModal w))) = title next.
Proof.
  apply String.eqb_neq in Hheading. apply String.eqb_neq in Hnext.
  split.
  - eexists. simpl. rewrite Hin. split; [reflexivity|]. simpl.
    repeat split. unfold modalTitle. simpl. rewrite Hinfo, Htitle.
    unfold or_else. simpl. rewrite Hheading. simpl. by rewrite Hheading.
  - unfold modalTitle. simpl. unfold or_else. simpl. by rewrite Hnext.
Qed.

Lemma stale_title_after_reopen_witness :
  exists w',
    run (closeModal (openModal_begin tenderFive initialLoader))
      [Fulfil 0 (withContact JNull tenderFive); Select tenderSix] = Some w' /\
    modalTitle (modal w') = "Detailed title".
Proof.
  destruct (stale_title_after_reopen (openModal_begin tenderFive initialLoader)
              0%nat tenderFive (withContact JNull tenderFive) tenderSix _
              "Detailed title" eq_refl eq_refl eq_refl) as [(w' & H1 & _ & _ & H2) _];
    [discriminate | discriminate |].
  by exists w'.
Defined.

(* ===================================================================== *)
(** * Further properties: Escape key and scroll lock                      *)
(* ===================================================================== *)

Lemma commit_invariant (wasOpen : bool) (w : Loader) (listener : option bool)
    (overflow : string) :
  listener = (if wasOpen then Some true else None) ->
  (overflow = "hidden" <-> wasOpen = true) ->
  pageInvariant_holds
    (commit wasOpen
       {| component := w; keydownListener := listener; bodyOverflow := overflow |}).
Proof.
  intros Hl Ho. unfold commit, pageInvariant_holds, effectBody, effectCleanup.
  cbn [component keydownListener bodyOverflow].
  destruct wasOpen, (isModalOpen (modal w)) eqn:E;
    cbn [Bool.eqb component keydownListener bodyOverflow]; rewrite ?E;
    cbn [component keydownListener bodyOverflow]; rewrite ?E; done.
Qed.

Lemma pageStep_invariant (p p' : Page) (e : PageEvent) :
  pageInvariant_holds p -> pageStep p e = Some p' -> pageInvariant_holds p'.
Proof.
  intros [Hl Ho] Hstep. destruct e as [key|e]; simpl in Hstep.
  - destruct (keydownListener p) as [isOpen|] eqn:El.
    + inversion Hstep; subst; clear Hstep. by apply commit_invariant.
    + inversion Hstep; subst. split; [by rewrite El | done].
  - destruct (step (component p) e) as [w|]; [|discriminate].
    inversion Hstep; subst; clear Hstep. by apply commit_invariant.
Qed.

Lemma pageRun_invariant (es : list PageEvent) (p p' : Page) :
  pageInvariant_holds p -> pageRun p es = Some p' -> pageInvariant_holds p'.
Proof.
  revert p. induction es as [|e es IH]; simpl; intros p Hp Hrun.
  - by inversion Hrun; subst.
  - destruct (pageStep p e) as [p1|] eqn:E; [|discriminate].
    eapply IH; [|exact Hrun]. by eapply pageStep_invariant.
Qed.

Lemma mount_invariant (overflow : string) :
  overflow <> "hidden" -> pageInvariant_holds (mount initialLoader overflow).
Proof. intros H. split; [reflexivity|]. simpl. split; [done | discriminate]. Qed.

(** X17. Background scrolling is locked exactly while the modal is open:
    after any sequence of key presses and component events on a page whose
    body was not already locked, [document.body.style.overflow] is ['hidden']
    iff the modal is open, and the keydown listener is registered iff the
    modal is open. *)
Theorem scroll_lock_follows_modal (overflow : string) (es : list PageEvent)
    (p : Page)
    (Hfree : overflow <> "hidden")
    (Hrun : pageRun (mount initialLoader overflow) es = Some p) :
  (bodyOverflow p = "hidden" <-> isModalOpen (modal (component p)) = true) /\
  (is_Some (keydownListener p) <-> isModalOpen (modal (component p)) = true).
Proof.
  destruct (pageRun_invariant es _ _ (mount_invariant overflow Hfree) Hrun)
    as [Hl Ho].
  split; [exact Ho|]. rewrite Hl.
  destruct (isModalOpen (modal (component p))); split; try done;
    by intros [? ?].
Qed.

Lemma scroll_lock_follows_modal_witness :
  exists p,
    pageRun (mount initialLoader "") [Component (Select tenderFive)] = Some p /\
    bodyOverflow p = "hidden".
Proof.
  eexists. split; [reflexivity|].
  apply (scroll_lock_follows_modal "" [Component (Select tenderFive)] _);
    [discriminate | reflexivity | reflexivity].
Defined.

(** X18. Pressing Escape while the modal is open does what [closeModal] does:
    the modal state is reset, the scroll lock is released and the listener is
    removed, while the requests in flight are left as they are.  Any other
    key, and any key while the modal is closed, changes nothing. *)
Theorem escape_closes_open_modal (overflow : string) (es : list PageEvent)
    (p : Page) (key : string)
    (Hfree : overflow <> "hidden")
    (Hrun : pageRun (mount initialLoader overflow) es = Some p) :
  exists p',
    pageStep p (KeyDown key) = Some p' /\
    (isModalOpen (modal (component p)) = true -> key = "Escape" ->
       modal (component p') = initialModal /\
       inflight (component p') = inflight (component p) /\
       bodyOverflow p' = "unset" /\
       keydownListener p' = None) /\
    (isModalOpen (modal (component p)) = false \/ key <> "Escape" -> p' = p).
Proof.
  destruct (pageRun_invariant es _ _ (mount_invariant overflow Hfree) Hrun)
    as [Hl Ho].
  destruct p as [w listener body]. cbn [component keydownListener bodyOverflow] in *.
  unfold pageStep. cbn [component keydownListener bodyOverflow]. rewrite Hl.
  destruct (isModalOpen (modal w)) eqn:Eopen.
  - unfold handleEscape. destruct (String.eqb_spec key "Escape") as [->|Hkey];
      cbn [andb].
    + eexists. split; [reflexivity|]. split; [|by intros [?|?]].
      intros _ _. unfold commit. by cbn.
    + eexists. split; [reflexivity|]. split; [done|]. intros _.
      unfold commit. cbn [component]. by rewrite Eopen.
  - eexists. split; [reflexivity|]. split; [discriminate | done].
Qed.

Lemma escape_closes_open_modal_witness :
  exists p',
    pageStep
      (commit false {| component := openModal_begin tenderFive initialLoader;
                       keydownListener := None; bodyOverflow := "" |})
      (KeyDown "Escape") = Some p' /\
    modal (component p') = initialModal /\
    bodyOverflow p' = "unset".
Proof.
  destruct (escape_closes_open_modal "" [Component (Select tenderFive)]
              (commit false {| component := openModal_begin tenderFive initialLoader;
                               keydownListener := None; bodyOverflow := "" |})
              "Escape")
    as (p' & H1 & H2 & _); [discriminate | reflexivity |].
  exists p'. split; [exact H1|].
  destruct (H2 eq_refl eq_refl) as (H3 & _ & H4 & _). by split.
Defined.

(* ===================================================================== *)
(** * Further properties: the organisation cell and the counters          *)
(* ===================================================================== *)

(** X19. The organisation cell of the modal: a contact payload that is a
    non-empty string [JSON.parse] rejects is shown as it is; an absent payload
    and the empty string show "Not specified"; and a string that parses to
    [null] makes the render fail with a TypeError, because the parsed value
    is returned as it is and its [organization] is then read.  The cell never
    fails with the parser's own exception. *)
Theorem organization_cell_shows_raw_text (JSON_parse : string -> Result JsValue)
    (detailed : Tender) (info : DetailedTenderInfo)
    (Hinfo : detailed_info detailed = Some info) :
  (forall text e,
     contact_info info = JStr text -> text <> "" -> JSON_parse text = Throw e ->
     organizationCell JSON_parse detailed = Shown (JStr text)) /\
  (contact_info info = JUndefined \/ contact_info info = JNull \/
   (contact_info info = JStr "" /\ exists e, JSON_parse "" = Throw e) ->
   organizationCell JSON_parse detailed = Shown (JStr "Not specified")) /\
  (forall text,
     contact_info info = JStr text -> JSON_parse text = Ok JNull ->
     organizationCell JSON_parse detailed = UncaughtTypeError) /\
  (forall e, organizationCell JSON_parse detailed <> Uncaught e).
Proof.
  unfold organizationCell. rewrite Hinfo. split; [|split; [|split]].
  - intros text e -> Htext Hfail. unfold parseContactInfo. rewrite Hfail.
    cbn [try_catch readOrganization]. rewrite lookup_singleton_eq.
    cbn [js_truthy]. apply String.eqb_neq in Htext. by rewrite Htext.
  - intros [-> | [-> | [-> [e Hfail]]]]; try reflexivity.
    unfold parseContactInfo. rewrite Hfail.
    cbn [try_catch readOrganization]. by rewrite lookup_singleton_eq.
  - intros text -> Hnull. unfold parseContactInfo. by rewrite Hnull.
  - intros e. destruct (parseContactInfo_returns JSON_parse (contact_info info))
      as [v ->].
    destruct (readOrganization v) eqn:E; try discriminate.
    destruct v; discriminate.
Qed.

Lemma organization_cell_shows_raw_text_witness :
  organizationCell JSON.parse (withContact (JStr "Ministry of Finance") tenderFive) =
    Shown (JStr "Ministry of Finance") /\
  organizationCell JSON.parse (withContact (JStr "null") tenderFive) = UncaughtTypeError.
Proof.
  split.
  - destruct (organization_cell_shows_raw_text JSON.parse
                (withContact (JStr "Ministry of Finance") tenderFive) _ eq_refl)
      as [H _].
    apply (H "Ministry of Finance" SyntaxError); [reflexivity | discriminate | reflexivity].
  - destruct (organization_cell_shows_raw_text JSON.parse
                (withContact (JStr "null") tenderFive) _ eq_refl)
      as (_ & _ & H & _).
    apply (H "null"); reflexivity.
Defined.

(** X20. The dashboard counters: the ESG and credit-rating counts never add
    up to more than the total, and they add up to it exactly when every
    tender of the collection is in one of those two categories. *)
Theorem category_counts_within_total {P : Type} (tenders : list Tender)
    (pages : list P) :
  let stats := updateStats tenders pages in
  (stat_esg stats + stat_credit stats <= stat_total stats)%nat /\
  ((stat_esg stats + stat_credit stats = stat_total stats)%nat <->
   forall t, In t tenders -> category t = "esg" \/ category t = "credit_rating") /\
  stat_pages stats = length pages.
Proof.
  cbn [updateStats stat_esg stat_credit stat_total stat_pages].
  set (e := fun t => String.eqb (category t) "esg").
  set (c := fun t => String.eqb (category t) "credit_rating").
  assert (forall x, e x = true -> c x = false) as Hd.
  { intros x. unfold e, c. rewrite String.eqb_eq. by intros ->. }
  split; [by apply filter_disjoint_length|]. split; [|reflexivity].
  induction tenders as [|x l IH]; simpl.
  - split; [by intros _ t [] | done].
  - pose proof (filter_disjoint_length e c l Hd) as Hle.
    destruct (e x) eqn:Ee.
    + rewrite (Hd x Ee). simpl. split.
      * intros H t [<-|Ht]; [left; by apply String.eqb_eq|].
        apply IH; [lia | done].
      * intros H. f_equal. apply IH. intros t Ht. apply H. by right.
    + destruct (c x) eqn:Ec; simpl.
      * split.
        -- intros H t [<-|Ht]; [right; by apply String.eqb_eq|].
           apply IH; [lia | done].
        -- intros H. rewrite Nat.add_succ_r. f_equal. apply IH.
           intros t Ht. apply H. by right.
      * split; [lia|]. intros H. exfalso.
        destruct (H x (or_introl eq_refl)) as [Hx|Hx].
        -- unfold e in Ee. apply String.eqb_neq in Ee. done.
        -- unfold c in Ec. apply String.eqb_neq in Ec. done.
Qed.

Lemma category_counts_within_total_witness :
  (stat_esg (updateStats [titled 30 "Road works" None "both";
                          titled 31 "Carbon audit" None "esg"] (@nil unit)) +
   stat_credit (updateStats [titled 30 "Road works" None "both";
                             titled 31 "Carbon audit" None "esg"] (@nil unit))
   <= 2)%nat.
Proof.
  exact (proj1 (category_counts_within_total
                  [titled 30 "Road works" None "both";
                   titled 31 "Carbon audit" None "esg"] (@nil unit))).
Defined.

(* ===================================================================== *)
(** * Further properties: the data the hook holds                         *)
(* ===================================================================== *)

Section UseApiFacts.
Context {P K : Type}.
Implicit Types (d : ApiData P K) (e : ApiEvent P K) (es : list (ApiEvent P K)).

Lemma apiRun_app d es1 es2 : apiRun d (es1 ++ es2) = apiRun (apiRun d es1) es2.
Proof. apply fold_left_app. Qed.

Lemma apiStep_keeps_tenders d e :
  deliversTenders e = false -> api_tenders (apiStep d e) = api_tenders d.
Proof. by destruct e. Qed.

Lemma apiRun_keeps_tenders es d :
  forallb (fun e => negb (deliversTenders e)) es = true ->
  api_tenders (apiRun d es) = api_tenders d.
Proof.
  revert d. induction es as [|e es IH]; intros d; simpl; [done|].
  rewrite andb_true_iff, negb_true_iff. intros [He Hes].
  unfold apiRun in *. simpl. by rewrite IH, apiStep_keeps_tenders.
Qed.

Lemma apiRun_keeps_notice es d :
  forallb keepsNotice es = true -> api_error (apiRun d es) = api_error d.
Proof.
  revert d. induction es as [|e es IH]; intros d; simpl; [done|].
  rewrite andb_true_iff. intros [He Hes].
  unfold apiRun in *. simpl. rewrite IH by done. by destruct e.
Qed.

Lemma apiStep_stats d e :
  api_stats d = updateStats (api_tenders d) (api_pages d) ->
  api_stats (apiStep d e) =
  updateStats (api_tenders (apiStep d e)) (api_pages (apiStep d e)).
Proof. by destruct e. Qed.

Lemma apiRun_stats es d :
  api_stats d = updateStats (api_tenders d) (api_pages d) ->
  api_stats (apiRun d es) =
  updateStats (api_tenders (apiRun d es)) (api_pages (apiRun d es)).
Proof.
  revert d. induction es as [|e es IH]; intros d Hd; [done|].
  unfold apiRun in *. simpl. by apply IH, apiStep_stats.
Qed.

End UseApiFacts.

(** X21. A load that fails never clears what was loaded before: whatever
    else settles afterwards, the tenders handed to the list are those of the
    last successful [loadTenders]. *)
Theorem failed_loads_keep_tenders {P K : Type} (d : ApiData P K)
    (before after : list (ApiEvent P K)) (data : list Tender)
    (Hafter : forallb (fun e => negb (deliversTenders e)) after = true) :
  api_tenders (apiRun d (before ++ TendersArrived data :: after)) = data /\
  api_tenders (apiRun d after) = api_tenders d.
Proof.
  split; [|by apply apiRun_keeps_tenders].
  rewrite apiRun_app. change (TendersArrived data :: after) with
    ([TendersArrived data] ++ after). rewrite apiRun_app.
  by rewrite apiRun_keeps_tenders.
Qed.

Lemma failed_loads_keep_tenders_witness :
  api_tenders
    (apiRun (@initialApi unit unit)
       ([PagesFailed] ++ TendersArrived scenarioA :: [TendersFailed; ExtractionFailed]))
  = scenarioA.
Proof.
  exact (proj1 (failed_loads_keep_tenders (@initialApi unit unit) [PagesFailed]
                  [TendersFailed; ExtractionFailed] scenarioA eq_refl)).
Defined.

(** X22. After every event the counters are those of the data held: the
    total is the number of tenders, the page count the number of pages, and
    the two category counts are the counts over the tenders held. *)
Theorem stats_follow_the_data {P K : Type} (es : list (ApiEvent P K)) :
  let d := apiRun initialApi es in
  api_stats d = updateStats (api_tenders d) (api_pages d) /\
  stat_total (api_stats d) = length (api_tenders d) /\
  stat_pages (api_stats d) = length (api_pages d).
Proof.
  pose proof (apiRun_stats es (@initialApi P K) eq_refl) as H.
  cbv zeta. by rewrite H.
Qed.

(** X23. The error notice is set by a failure and stays until it is
    dismissed: loads that succeed afterwards do not clear it. *)
Theorem error_notice_outlives_success {P K : Type} (d : ApiData P K)
    (before after : list (ApiEvent P K)) (failure : ApiEvent P K) (message : string)
    (Hfailure : failureMessage failure = Some message)
    (Hafter : forallb keepsNotice after = true) :
  api_error (apiRun d (before ++ failure :: after)) = Some message /\
  api_error (apiRun d (before ++ failure :: after ++ [ErrorDismissed])) = None.
Proof.
  assert (api_error (apiStep (apiRun d before) failure) = Some message) as Hf.
  { destruct failure; try discriminate; simpl in *; congruence. }
  split.
  - rewrite apiRun_app. change (failure :: after) with ([failure] ++ after).
    rewrite apiRun_app. by rewrite apiRun_keeps_notice.
  - change (failure :: after ++ [ErrorDismissed]) with
      ((failure :: after) ++ [ErrorDismissed]).
    by rewrite app_assoc, apiRun_app.
Qed.

Lemma error_notice_outlives_success_witness :
  api_error
    (apiRun (@initialApi unit unit)
       ([] ++ TendersFailed :: [TendersArrived scenarioA; PagesArrived []]))
  = Some "Failed to load tenders".
Proof.
  exact (proj1 (error_notice_outlives_success (@initialApi unit unit) []
                  [TendersArrived scenarioA; PagesArrived []] TendersFailed
                  "Failed to load tenders" eq_refl eq_refl)).
Defined.
